(** * ChatPanel: the streaming turn of the chat panel

    A shallow embedding of [frontend/components/ChatPanel.tsx]: the history
    fetch, the send guard, the per-chunk line loop that decodes the
    [data: ...] frames of the response stream, the accumulation of the
    assistant text, the commit and the failure path.

    Text is modelled as JavaScript has it: a string is a sequence of UTF-16
    code units.  A chunk is the text [decoder.decode(value)] of one
    [reader.read()]. *)

From Stdlib Require Import List NArith Bool Ascii String Lia PeanoNat.
From Stdlib Require DecimalString DecimalN.
Import ListNotations.

Local Open Scope N_scope.
Local Open Scope list_scope.

(* ------------------------------------------------------------------ *)
(** ** JavaScript strings *)

Definition jsstring : Type := list N.

(** A literal of the source, as code units. *)
Definition js (s : string) : jsstring :=
  map N_of_ascii (list_ascii_of_string s).

Fixpoint str_eqb (a b : jsstring) : bool :=
  match a, b with
  | [], [] => true
  | x :: a', y :: b' => (x =? y) && str_eqb a' b'
  | _, _ => false
  end.

(** [s.startsWith(prefix)] *)
Fixpoint startsWith (s prefix : jsstring) : bool :=
  match prefix with
  | [] => true
  | p :: prefix' =>
      match s with
      | [] => false
      | c :: s' => (c =? p) && startsWith s' prefix'
      end
  end.

(** [s.slice(n)] for a non-negative [n]: the string without its first [n]
    code units, empty when [s] is shorter. *)
Definition slice (n : nat) (s : jsstring) : jsstring := skipn n s.

(** WhiteSpace and LineTerminator code units of ECMAScript, the ones
    [String.prototype.trim] strips. *)
Definition is_whitespace (c : N) : bool :=
  ((9 <=? c) && (c <=? 13))
  || (c =? 32) || (c =? 160) || (c =? 5760)
  || ((8192 <=? c) && (c <=? 8202))
  || (c =? 8232) || (c =? 8233) || (c =? 8239) || (c =? 8287)
  || (c =? 12288) || (c =? 65279).

Fixpoint trimStart (s : jsstring) : jsstring :=
  match s with
  | [] => []
  | c :: s' => if is_whitespace c then trimStart s' else s
  end.

Definition trimEnd (s : jsstring) : jsstring := rev (trimStart (rev s)).

Definition trim (s : jsstring) : jsstring := trimEnd (trimStart s).

(** [s.split(sep)] for a separator of one code unit: never empty, the
    empty string splits into one empty segment. *)
Fixpoint split (sep : N) (s : jsstring) : list jsstring :=
  match s with
  | [] => [[]]
  | c :: s' =>
      if c =? sep then [] :: split sep s'
      else match split sep s' with
           | [] => [[c]]
           | seg :: segs => (c :: seg) :: segs
           end
  end.

Definition LF : N := 10.

(** A literal of the source that contains double quotes, written here with
    apostrophes in their place. *)
Arguments js : simpl never.

Definition jsq (s : string) : jsstring :=
  map (fun c => if c =? 39 then 34 else c) (js s).

(* ------------------------------------------------------------------ *)
(** ** JavaScript values that [JSON.parse] can produce, and [undefined] *)

#[warnings="-register-all"]
Inductive JsValue : Type :=
| VUndefined
| VNull
| VBool (b : bool)
| VNumber (lexeme : jsstring)
| VString (s : jsstring)
| VArray (elements : list JsValue)
| VObject (fields : list (jsstring * JsValue)).

(** The own data property [key] of an object built by [JSON.parse]: fields
    are kept in source order and a repeated key takes its last value. *)
Fixpoint own_property (fields : list (jsstring * JsValue)) (key : jsstring)
  : option JsValue :=
  match fields with
  | [] => None
  | (k, v) :: fields' =>
      match own_property fields' key with
      | Some v' => Some v'
      | None => if str_eqb k key then Some v else None
      end
  end.

(** [v.key] for a key that no builtin prototype defines (here [type] and
    [content]): [None] is the TypeError of reading a property of [null] or
    [undefined]; primitives and arrays answer [undefined]. *)
Definition Get (v : JsValue) (key : jsstring) : option JsValue :=
  match v with
  | VUndefined | VNull => None
  | VObject fields =>
      match own_property fields key with
      | Some x => Some x
      | None => Some VUndefined
      end
  | _ => Some VUndefined
  end.

(** [v === lit] for a string literal [lit]. *)
Definition strict_eq_string (v : JsValue) (lit : jsstring) : bool :=
  match v with
  | VString s => str_eqb s lit
  | _ => false
  end.

(* ------------------------------------------------------------------ *)
(** ** [JSON.parse] *)

Module JSON.

Inductive result (A : Type) : Type :=
| Parsed (a : A) (rest : jsstring)
| SyntaxError
| OutOfFuel.
Arguments Parsed {A} a rest.
Arguments SyntaxError {A}.
Arguments OutOfFuel {A}.

(** JSON white space: space, tab, line feed, carriage return. *)
Definition is_ws (c : N) : bool :=
  (c =? 32) || (c =? 9) || (c =? 10) || (c =? 13).

Fixpoint skip_ws (s : jsstring) : jsstring :=
  match s with
  | [] => []
  | c :: s' => if is_ws c then skip_ws s' else s
  end.

Definition is_digit (c : N) : bool := (48 <=? c) && (c <=? 57).

Definition hex_value (c : N) : option N :=
  if is_digit c then Some (c - 48)
  else if (65 <=? c) && (c <=? 70) then Some (c - 55)
  else if (97 <=? c) && (c <=? 102) then Some (c - 87)
  else None.

Definition hex4 (a b c d : N) : option N :=
  match hex_value a, hex_value b, hex_value c, hex_value d with
  | Some x, Some y, Some z, Some w => Some (((x * 16 + y) * 16 + z) * 16 + w)
  | _, _, _, _ => None
  end.

(** The code unit of a one-letter escape. *)
Definition simple_escape (c : N) : option N :=
  if c =? 34 then Some 34            (* quote *)
  else if c =? 92 then Some 92       (* backslash *)
  else if c =? 47 then Some 47       (* slash *)
  else if c =? 98 then Some 8        (* backspace *)
  else if c =? 102 then Some 12      (* form feed *)
  else if c =? 110 then Some 10      (* line feed *)
  else if c =? 114 then Some 13      (* carriage return *)
  else if c =? 116 then Some 9       (* tab *)
  else None.

(** The characters of a string literal after its opening quote, up to
    and including the closing quote. *)
Fixpoint string_chars (s : jsstring) (acc : jsstring)
  : option (jsstring * jsstring) :=
  match s with
  | [] => None
  | c :: s1 =>
      if c =? 34 then Some (rev acc, s1)
      else if c =? 92 then
        match s1 with
        | [] => None
        | e :: s2 =>
            if e =? 117 then
              match s2 with
              | h1 :: h2 :: h3 :: h4 :: s3 =>
                  match hex4 h1 h2 h3 h4 with
                  | Some u => string_chars s3 (u :: acc)
                  | None => None
                  end
              | _ => None
              end
            else
              match simple_escape e with
              | Some u => string_chars s2 (u :: acc)
              | None => None
              end
        end
      else if c <? 32 then None
      else string_chars s1 (c :: acc)
  end.

(** The longest run of digits at the head of [s], and what follows. *)
Fixpoint digits (s : jsstring) : jsstring * jsstring :=
  match s with
  | [] => ([], [])
  | c :: s' =>
      if is_digit c then let (ds, rest) := digits s' in (c :: ds, rest)
      else ([], s)
  end.

(** A number lexeme: an optional minus; a zero or a digit from 1 to 9
    with its digits; an optional point with one digit or more; an
    optional exponent mark, sign and one digit or more. *)
Definition number (s : jsstring) : option (jsstring * jsstring) :=
  let (sign, s0) :=
    match s with
    | c :: s' => if c =? 45 then ([c], s') else ([], s)
    | [] => ([], s)
    end in
  match s0 with
  | [] => None
  | d :: s1 =>
      if negb (is_digit d) then None
      else
        let (int, s2) :=
          if d =? 48 then ([d], s1)
          else let (ds, r) := digits s1 in (d :: ds, r) in
        let frac :=
          match s2 with
          | p :: s3 =>
              if p =? 46 then
                match digits s3 with
                | ([], _) => None
                | (ds, r) => Some (p :: ds, r)
                end
              else Some ([], s2)
          | [] => Some ([], s2)
          end in
        match frac with
        | None => None
        | Some (fr, s4) =>
            let exp :=
              match s4 with
              | e :: s5 =>
                  if (e =? 101) || (e =? 69) then
                    let (sg, s6) :=
                      match s5 with
                      | g :: s5' =>
                          if (g =? 43) || (g =? 45) then ([g], s5')
                          else ([], s5)
                      | [] => ([], s5)
                      end in
                    match digits s6 with
                    | ([], _) => None
                    | (ds, r) => Some (e :: sg ++ ds, r)
                    end
                  else Some ([], s4)
              | [] => Some ([], s4)
              end in
            match exp with
            | None => None
            | Some (ex, s7) => Some (sign ++ int ++ fr ++ ex, s7)
            end
        end
  end.

Definition keyword (s : jsstring) : option (JsValue * jsstring) :=
  if startsWith s (js "true") then Some (VBool true, skipn 4 s)
  else if startsWith s (js "false") then Some (VBool false, skipn 5 s)
  else if startsWith s (js "null") then Some (VNull, skipn 4 s)
  else None.

(** Recursive descent.  [value] reads one JSON value at the head of [s]
    (white space already skipped); [elements] reads the values of an
    array from its first value to the closing bracket; [members] reads
    the members of an object from its first key to the closing brace.
    The limit that an engine puts on the depth of nesting is not
    modelled; the exception it raises is swallowed like a syntax error. *)
Fixpoint value (fuel : nat) (s : jsstring) {struct fuel} : result JsValue :=
  match fuel with
  | O => OutOfFuel
  | S fuel' =>
      match s with
      | [] => SyntaxError
      | c :: s1 =>
          if c =? 123 then                             (* { *)
            match skip_ws s1 with
            | [] => SyntaxError
            | c1 :: s2 =>
                if c1 =? 125 then Parsed (VObject []) s2
                else members fuel' (c1 :: s2) []
            end
          else if c =? 91 then                         (* [ *)
            match skip_ws s1 with
            | [] => SyntaxError
            | c1 :: s2 =>
                if c1 =? 93 then Parsed (VArray []) s2
                else elements fuel' (c1 :: s2) []
            end
          else if c =? 34 then                         (* string *)
            match string_chars s1 [] with
            | Some (str, rest) => Parsed (VString str) rest
            | None => SyntaxError
            end
          else if (c =? 45) || is_digit c then
            match number s with
            | Some (lexeme, rest) => Parsed (VNumber lexeme) rest
            | None => SyntaxError
            end
          else
            match keyword s with
            | Some (v, rest) => Parsed v rest
            | None => SyntaxError
            end
      end
  end

with elements (fuel : nat) (s : jsstring) (acc : list JsValue)
       {struct fuel} : result JsValue :=
  match fuel with
  | O => OutOfFuel
  | S fuel' =>
      match value fuel' s with
      | Parsed v rest =>
          match skip_ws rest with
          | [] => SyntaxError
          | c :: s1 =>
              if c =? 44 then elements fuel' (skip_ws s1) (v :: acc)
              else if c =? 93 then Parsed (VArray (rev (v :: acc))) s1
              else SyntaxError
          end
      | SyntaxError => SyntaxError
      | OutOfFuel => OutOfFuel
      end
  end

with members (fuel : nat) (s : jsstring) (acc : list (jsstring * JsValue))
       {struct fuel} : result JsValue :=
  match fuel with
  | O => OutOfFuel
  | S fuel' =>
      match s with
      | [] => SyntaxError
      | q :: s1 =>
          if negb (q =? 34) then SyntaxError
          else
            match string_chars s1 [] with
            | None => SyntaxError
            | Some (key, s2) =>
                match skip_ws s2 with
                | [] => SyntaxError
                | colon :: s3 =>
                    if negb (colon =? 58) then SyntaxError
                    else
                      match value fuel' (skip_ws s3) with
                      | Parsed v rest =>
                          match skip_ws rest with
                          | [] => SyntaxError
                          | c :: s4 =>
                              if c =? 44 then
                                members fuel' (skip_ws s4) ((key, v) :: acc)
                              else if c =? 125 then
                                Parsed (VObject (rev ((key, v) :: acc))) s4
                              else SyntaxError
                          end
                      | SyntaxError => SyntaxError
                      | OutOfFuel => OutOfFuel
                      end
                end
            end
      end
  end.

(** Fuel that the descent never exhausts on [s]. *)
Definition fuel_for (s : jsstring) : nat := (2 * List.length s + 1)%nat.

(** [JSON.parse(text)]: [None] is the exception it throws. *)
Definition parse (text : jsstring) : option JsValue :=
  let s := skip_ws text in
  match value (fuel_for s) s with
  | Parsed v rest =>
      match skip_ws rest with
      | [] => Some v
      | _ :: _ => None
      end
  | SyntaxError => None
  | OutOfFuel => None
  end.

End JSON.

(* ------------------------------------------------------------------ *)
(** ** String concatenation with a parsed value *)

Section Panel.

(** [Number.prototype.toString] applied to the double that a JSON number
    lexeme denotes.  It is a builtin of the platform and works on
    floating point; the development holds for any such function. *)
Variable Number_toString : jsstring -> jsstring.

Definition has_own_property (fields : list (jsstring * JsValue))
  (key : jsstring) : bool :=
  match own_property fields key with
  | Some _ => true
  | None => false
  end.

(** [ToString(v)] for a value built by [JSON.parse], or [undefined];
    [None] is the TypeError of an object that cannot be converted to a
    primitive.  An array is joined with commas, [null] and [undefined]
    elements giving the empty string; a plain object gives
    [[object Object]] unless an own [toString] field, which is never
    callable here, shadows the inherited method. *)
Fixpoint ToString (v : JsValue) : option jsstring :=
  match v with
  | VUndefined => Some (js "undefined")
  | VNull => Some (js "null")
  | VBool true => Some (js "true")
  | VBool false => Some (js "false")
  | VNumber lexeme => Some (Number_toString lexeme)
  | VString s => Some s
  | VArray elements =>
      (fix join (l : list JsValue) : option jsstring :=
         match l with
         | [] => Some []
         | e :: l' =>
             let item :=
               match e with
               | VUndefined | VNull => Some []
               | _ => ToString e
               end in
             match item, l' with
             | None, _ => None
             | Some s, [] => Some s
             | Some s, _ :: _ =>
                 match join l' with
                 | Some r => Some (s ++ js "," ++ r)
                 | None => None
                 end
             end
         end) elements
  | VObject fields =>
      if has_own_property fields (js "toString") then None
      else Some (js "[object Object]")
  end.

(** [s + v] with a string on the left. *)
Definition plus (s : jsstring) (v : JsValue) : option jsstring :=
  match ToString v with
  | Some r => Some (s ++ r)
  | None => None
  end.

(* ---------------------------------------------------------------- *)
(** ** The panel *)

(** Modelled from the spec: the type [ChatMessage] that the component
    imports from [@/lib/api], a file that is not among the sources.  The
    fields are the four that [handleSend] writes, the roles the two of the
    ConversationMessage of the specification. *)
Inductive Role : Type := user | assistant.

Record ChatMessage : Type := {
  id : jsstring;
  role : Role;
  content : jsstring;
  timestamp : jsstring
}.

(** The React state of the component, and the calls it has made
    outwards: [taskMutations] counts the calls of [onTaskMutation],
    [requests] lists the message text of every [fetch] of the stream
    endpoint, [consoleErrors] counts the calls of [console.error]. *)
Record Session : Type := {
  messages : list ChatMessage;
  isTyping : bool;
  currentResponse : jsstring;
  inputValue : jsstring;
  taskMutations : nat;
  requests : list jsstring;
  consoleErrors : nat
}.

Definition setMessages (f : list ChatMessage -> list ChatMessage)
  (st : Session) : Session :=
  {| messages := f (messages st); isTyping := isTyping st;
     currentResponse := currentResponse st; inputValue := inputValue st;
     taskMutations := taskMutations st; requests := requests st;
     consoleErrors := consoleErrors st |}.

Definition setIsTyping (b : bool) (st : Session) : Session :=
  {| messages := messages st; isTyping := b;
     currentResponse := currentResponse st; inputValue := inputValue st;
     taskMutations := taskMutations st; requests := requests st;
     consoleErrors := consoleErrors st |}.

Definition setCurrentResponse (s : jsstring) (st : Session) : Session :=
  {| messages := messages st; isTyping := isTyping st;
     currentResponse := s; inputValue := inputValue st;
     taskMutations := taskMutations st; requests := requests st;
     consoleErrors := consoleErrors st |}.

Definition setInputValue (s : jsstring) (st : Session) : Session :=
  {| messages := messages st; isTyping := isTyping st;
     currentResponse := currentResponse st; inputValue := s;
     taskMutations := taskMutations st; requests := requests st;
     consoleErrors := consoleErrors st |}.

Definition onTaskMutation (st : Session) : Session :=
  {| messages := messages st; isTyping := isTyping st;
     currentResponse := currentResponse st; inputValue := inputValue st;
     taskMutations := S (taskMutations st); requests := requests st;
     consoleErrors := consoleErrors st |}.

Definition fetch (message : jsstring) (st : Session) : Session :=
  {| messages := messages st; isTyping := isTyping st;
     currentResponse := currentResponse st; inputValue := inputValue st;
     taskMutations := taskMutations st;
     requests := requests st ++ [message];
     consoleErrors := consoleErrors st |}.

Definition console_error (st : Session) : Session :=
  {| messages := messages st; isTyping := isTyping st;
     currentResponse := currentResponse st; inputValue := inputValue st;
     taskMutations := taskMutations st; requests := requests st;
     consoleErrors := S (consoleErrors st) |}.

(** [fetchHistory]: [outcome] is what [chatAPI.getHistory()] settles to,
    [None] when it rejects. *)
Definition fetchHistory (outcome : option (list ChatMessage))
  (st : Session) : Session :=
  match outcome with
  | Some history => setMessages (fun _ => history) st
  | None => console_error st
  end.

(* ---------------------------------------------------------------- *)
(** ** The read loop of [handleSend] *)

(** The two locals of the [try] block. *)
Record TurnState : Type := {
  assistantContent : jsstring;
  needsSync : bool
}.

Definition turn_start : TurnState :=
  {| assistantContent := []; needsSync := false |}.

Inductive LoopControl : Type := Continue | Break.

(** The body of [for (const line of lines)].  Every exception raised
    inside the inner [try] is swallowed by its [catch]. *)
Definition line_step (st : Session) (t : TurnState) (line : jsstring)
  : Session * TurnState * LoopControl :=
  if startsWith line (js "data: ") then
    let data := trim (slice 6 line) in
    if str_eqb data (js "[DONE]") then (st, t, Break)
    else
      match JSON.parse data with
      | None => (st, t, Continue)
      | Some parsed =>
          match Get parsed (js "type") with
          | None => (st, t, Continue)
          | Some ty =>
              if strict_eq_string ty (js "text") then
                match Get parsed (js "content") with
                | None => (st, t, Continue)
                | Some payload =>
                    match plus (assistantContent t) payload with
                    | None => (st, t, Continue)
                    | Some text =>
                        (setCurrentResponse text st,
                         {| assistantContent := text;
                            needsSync := needsSync t |},
                         Continue)
                    end
                end
              else if strict_eq_string ty (js "tool_call") then
                (st,
                 {| assistantContent := assistantContent t;
                    needsSync := true |},
                 Continue)
              else (st, t, Continue)
          end
      end
  else (st, t, Continue).

Fixpoint for_lines (st : Session) (t : TurnState) (lines : list jsstring)
  : Session * TurnState :=
  match lines with
  | [] => (st, t)
  | line :: lines' =>
      match line_step st t line with
      | (st', t', Break) => (st', t')
      | (st', t', Continue) => for_lines st' t' lines'
      end
  end.

(** One iteration of [while (true)] on a chunk that was read. *)
Definition chunk_step (st : Session) (t : TurnState) (chunk : jsstring)
  : Session * TurnState :=
  for_lines st t (split LF chunk).

(** What the successive [reader.read()] settle to: a chunk, the end of
    the stream ([done]), or a rejection. *)
Inductive ReadStream : Type :=
| ReadDone
| ReadChunk (chunk : jsstring) (rest : ReadStream)
| ReadRejects.

(** [while (true)]: [None] when a read rejected and the exception left
    the loop. *)
Fixpoint read_loop (st : Session) (t : TurnState) (body : ReadStream)
  : Session * option TurnState :=
  match body with
  | ReadDone => (st, Some t)
  | ReadRejects => (st, None)
  | ReadChunk chunk rest =>
      let (st', t') := chunk_step st t chunk in
      read_loop st' t' rest
  end.

(* ---------------------------------------------------------------- *)
(** ** [handleSend] *)

(** What the request settles to.  [SetupThrows]: reading the token or
    encoding the message raised before [fetch] was called.
    [FetchRejects]: the network error.  [FetchResolves status body]: a
    response, of any status, whose body may be missing. *)
Inductive FetchOutcome : Type :=
| SetupThrows
| FetchRejects
| FetchResolves (status : N) (body : option ReadStream).

(** What one call of [handleSend] reads from its environment. *)
Record TurnEnv : Type := {
  now_at_submit : N;          (* Date.now() of the user message *)
  iso_at_submit : jsstring;   (* its toISOString() *)
  response : FetchOutcome;
  now_at_end : N;             (* Date.now() of the assistant message *)
  iso_at_end : jsstring       (* toISOString() of the closing message *)
}.

(** [n.toString()] for a non-negative integer below 2^53. *)
Definition decimal (n : N) : jsstring :=
  js (DecimalString.NilEmpty.string_of_uint (N.to_uint n)).

Definition apology : jsstring :=
  js "I'm sorry, I encountered an error. Please check your connection and try again.".

Definition userMsg (env : TurnEnv) (textContent : jsstring) : ChatMessage :=
  {| id := decimal (now_at_submit env); role := user;
     content := textContent; timestamp := iso_at_submit env |}.

Definition assistantMsg (env : TurnEnv) (t : TurnState) : ChatMessage :=
  {| id := decimal (now_at_end env + 1); role := assistant;
     content := assistantContent t; timestamp := iso_at_end env |}.

Definition errorMsg (env : TurnEnv) : ChatMessage :=
  {| id := js "error"; role := assistant;
     content := apology; timestamp := iso_at_end env |}.

(** The statements before the [try]. *)
Definition accept (env : TurnEnv) (textContent : jsstring) (st : Session)
  : Session :=
  setCurrentResponse []
    (setIsTyping true
       (setMessages (fun prev => prev ++ [userMsg env textContent])
          (setInputValue [] st))).

(** The statements after the loop, to the end of the [try] block. *)
Definition commit (env : TurnEnv) (t : TurnState) (st : Session) : Session :=
  let st1 := setMessages (fun prev => prev ++ [assistantMsg env t]) st in
  let st2 := setCurrentResponse [] st1 in
  if needsSync t then onTaskMutation st2 else st2.

(** The [try] block: the session it leaves, and whether it ran to its
    end ([true]) or raised ([false]). *)
Definition try_block (env : TurnEnv) (textContent : jsstring) (st : Session)
  : Session * bool :=
  match response env with
  | SetupThrows => (st, false)
  | FetchRejects => (fetch textContent st, false)
  | FetchResolves _ None => (fetch textContent st, false)
  | FetchResolves _ (Some body) =>
      match read_loop (fetch textContent st) turn_start body with
      | (st', Some t) => (commit env t st', true)
      | (st', None) => (st', false)
      end
  end.

Definition catch_block (env : TurnEnv) (st : Session) : Session :=
  setMessages (fun prev => prev ++ [errorMsg env]) (console_error st).

Definition finally_block (st : Session) : Session := setIsTyping false st.

(** The guard of the first two lines: the trimmed text when the call
    goes on. *)
Definition guard (st : Session) : option jsstring :=
  let textContent := trim (inputValue st) in
  match textContent with
  | [] => None
  | _ :: _ => if isTyping st then None else Some textContent
  end.

Definition handleSend (env : TurnEnv) (st : Session) : Session :=
  match guard st with
  | None => st
  | Some textContent =>
      let st1 := accept env textContent st in
      match try_block env textContent st1 with
      | (st2, true) => finally_block st2
      | (st2, false) => finally_block (catch_block env st2)
      end
  end.

(* ---------------------------------------------------------------- *)
(** ** The stream seen as events

    The component has no event type: the definitions below restate its
    line loop in the vocabulary of the specification (Frame Decoder,
    Event Classifier, Turn Accumulator), to be compared with
    [line_step], [for_lines] and [read_loop] above. *)

Inductive StreamEvent : Type :=
| TextDelta (payload : JsValue)
| ToolInvocation
| Terminal
| Unrecognized.

(** Event Classifier: the kind of a parsed record, from its [type]. *)
Definition classify (record : JsValue) : StreamEvent :=
  match Get record (js "type") with
  | None => Unrecognized
  | Some ty =>
      if strict_eq_string ty (js "text") then
        match Get record (js "content") with
        | Some payload => TextDelta payload
        | None => Unrecognized
        end
      else if strict_eq_string ty (js "tool_call") then ToolInvocation
      else Unrecognized
  end.

(** Frame Decoder, one line: no event for a line without the marker or
    with a payload that does not parse. *)
Definition decode_line (line : jsstring) : option StreamEvent :=
  if startsWith line (js "data: ") then
    let raw := trim (slice 6 line) in
    if str_eqb raw (js "[DONE]") then Some Terminal
    else
      match JSON.parse raw with
      | Some record => Some (classify record)
      | None => None
      end
  else None.

(** The events of the lines of one chunk: nothing after [Terminal]. *)
Fixpoint events_of_lines (lines : list jsstring) : list StreamEvent :=
  match lines with
  | [] => []
  | line :: lines' =>
      match decode_line line with
      | Some Terminal => [Terminal]
      | Some e => e :: events_of_lines lines'
      | None => events_of_lines lines'
      end
  end.

Definition events_of_chunk (chunk : jsstring) : list StreamEvent :=
  events_of_lines (split LF chunk).

(** The events of chunks fed one after the other. *)
Definition stream_events (chunks : list jsstring) : list StreamEvent :=
  flat_map events_of_chunk chunks.

(** Turn Accumulator and flag: the effect of one event. *)
Definition apply_event (s : Session * TurnState) (e : StreamEvent)
  : Session * TurnState :=
  let (st, t) := s in
  match e with
  | TextDelta payload =>
      match plus (assistantContent t) payload with
      | Some text =>
          (setCurrentResponse text st,
           {| assistantContent := text; needsSync := needsSync t |})
      | None => s
      end
  | ToolInvocation =>
      (st, {| assistantContent := assistantContent t; needsSync := true |})
  | Terminal => s
  | Unrecognized => s
  end.

Definition is_tool_invocation (e : StreamEvent) : bool :=
  match e with
  | ToolInvocation => true
  | _ => false
  end.

(** The payloads of the text-delta events, in order. *)
Fixpoint text_payloads (events : list StreamEvent) : list JsValue :=
  match events with
  | [] => []
  | TextDelta payload :: events' => payload :: text_payloads events'
  | _ :: events' => text_payloads events'
  end.

(** The text that a payload adds to the accumulated text: its string
    form, and nothing when the conversion raises. *)
Definition payload_text (payload : JsValue) : jsstring :=
  match ToString payload with
  | Some s => s
  | None => []
  end.

(** A line that carries the terminal sentinel. *)
Definition is_sentinel (line : jsstring) : bool :=
  startsWith line (js "data: ")
  && str_eqb (trim (slice 6 line)) (js "[DONE]").

Definition sentinel_free (chunk : jsstring) : bool :=
  forallb (fun line => negb (is_sentinel line)) (split LF chunk).

(** A chunk that stops at the end of a line: empty, or closed by a
    line feed. *)
Definition ends_line (chunk : jsstring) : bool :=
  match rev chunk with
  | [] => true
  | c :: _ => c =? LF
  end.

(** The chunks that a body delivers, and whether it then ends without
    a rejection. *)
Fixpoint chunks_of (body : ReadStream) : list jsstring :=
  match body with
  | ReadChunk chunk rest => chunk :: chunks_of rest
  | _ => []
  end.

Fixpoint ends_normally (body : ReadStream) : bool :=
  match body with
  | ReadDone => true
  | ReadChunk _ rest => ends_normally rest
  | ReadRejects => false
  end.

(** The body that delivers [chunks] and then goes on as [ending]. *)
Fixpoint deliver (chunks : list jsstring) (ending : ReadStream)
  : ReadStream :=
  match chunks with
  | [] => ending
  | chunk :: chunks' => ReadChunk chunk (deliver chunks' ending)
  end.

(** Whether the [try] block of a turn runs to its end. *)
Definition turn_completes (env : TurnEnv) : bool :=
  match response env with
  | FetchResolves _ (Some body) => ends_normally body
  | _ => false
  end.

(** The chunks that a turn reads. *)
Definition turn_chunks (env : TurnEnv) : list jsstring :=
  match response env with
  | FetchResolves _ (Some body) => chunks_of body
  | _ => []
  end.

(** The number of tool-invocation events of a turn. *)
Definition tool_invocations (env : TurnEnv) : nat :=
  List.length (filter is_tool_invocation (stream_events (turn_chunks env))).

(** A session: for each turn the user types a text into the input
    ([onChange] sets [inputValue]) and sends it. *)
Fixpoint run_turns (turns : list (jsstring * TurnEnv)) (st : Session)
  : Session :=
  match turns with
  | [] => st
  | (text, env) :: turns' =>
      run_turns turns' (handleSend env (setInputValue text st))
  end.




(* ---------------------------------------------------------------- *)
(** ** The rest of the component: what is rendered, the keyboard *)

(** A string used as a condition: the empty string is falsy. *)
Definition truthy (s : jsstring) : bool :=
  match s with
  | [] => false
  | _ :: _ => true
  end.

(** [disabled] of the send button. *)
Definition send_disabled (st : Session) : bool :=
  negb (truthy (trim (inputValue st))) || isTyping st.

(** Whether the bubble with the partial answer is rendered. *)
Definition shows_partial (st : Session) : bool :=
  truthy (currentResponse st).

(** Whether the line with the three dots is rendered. *)
Definition shows_thinking (st : Session) : bool :=
  isTyping st && negb (truthy (currentResponse st)).

(** [onKeyDown] of the text area: the session it leaves and whether
    [preventDefault] was called. *)
Definition onKeyDown (key : jsstring) (shiftKey : bool) (env : TurnEnv)
  (st : Session) : Session * bool :=
  if str_eqb key (js "Enter") && negb shiftKey then (handleSend env st, true)
  else (st, false).

(** [handleSend] from its [try] statement on, for the time when other
    handlers have run since the statements before it. *)
Definition settle (env : TurnEnv) (textContent : jsstring) (st : Session)
  : Session :=
  match try_block env textContent st with
  | (st2, true) => finally_block st2
  | (st2, false) => finally_block (catch_block env st2)
  end.

(** The text on display after the chunks of a turn. *)
Definition displayed_text (chunks : list jsstring) : jsstring :=
  List.concat (map payload_text (text_payloads (stream_events chunks))).

(** The message that closes a turn: the answer when the [try] block runs
    to its end, the apology when it raises. *)
Definition closing_message (env : TurnEnv) : ChatMessage :=
  if turn_completes env then
    assistantMsg env
      {| assistantContent := displayed_text (turn_chunks env);
         needsSync :=
           existsb is_tool_invocation (stream_events (turn_chunks env)) |}
  else errorMsg env.

(** A turn of a session that ends with a sync notification. *)
Definition turn_syncs (turn : jsstring * TurnEnv) : bool :=
  truthy (trim (fst turn))
  && turn_completes (snd turn)
  && existsb is_tool_invocation (stream_events (turn_chunks (snd turn))).

(* ---------------------------------------------------------------- *)
(** ** Sample sessions and streams *)

(** The rendering of the numbers that JavaScript prints as they are
    written, such as 42, -7 or 1.5. *)
Definition as_written (lexeme : jsstring) : jsstring := lexeme.

Definition idle_with_input (text : jsstring) : Session :=
  {| messages := []; isTyping := false; currentResponse := [];
     inputValue := text; taskMutations := 0; requests := [];
     consoleErrors := 0 |}.

(** A session in the middle of a turn, with a text typed meanwhile. *)
Definition in_flight_with_input (text : jsstring) : Session :=
  {| messages := [{| id := js "1000"; role := user; content := js "hi";
                     timestamp := js "2024-05-01T10:00:01.000Z" |}];
     isTyping := true; currentResponse := js "Hel";
     inputValue := text; taskMutations := 0; requests := [js "hi"];
     consoleErrors := 0 |}.

Definition env_at (submit finish : N) (outcome : FetchOutcome) : TurnEnv :=
  {| now_at_submit := submit;
     iso_at_submit := js "2024-05-01T10:00:01.000Z";
     response := outcome;
     now_at_end := finish;
     iso_at_end := js "2024-05-01T10:00:02.000Z" |}.

Definition frame_sure : jsstring :=
  jsq "data: {'type':'text','content':'Sure, '}" ++ [LF; LF].
Definition frame_adding : jsstring :=
  jsq "data: {'type':'text','content':'adding it now.'}" ++ [LF; LF].
Definition frame_tool : jsstring :=
  jsq "data: {'type':'tool_call','name':'add_task'}" ++ [LF; LF].
Definition frame_done : jsstring := js "data: [DONE]" ++ [LF; LF].
Definition frame_late : jsstring :=
  jsq "data: {'type':'text','content':'late'}" ++ [LF; LF].
Definition frame_no_content : jsstring :=
  jsq "data: {'type':'text'}" ++ [LF].

(** One frame, and the two pieces that a chunk boundary makes of it. *)
Definition frame_ok : jsstring :=
  jsq "data: {'type':'text','content':'ok'}" ++ [LF].
Definition frame_ok_head : jsstring := jsq "data: {'typ".
Definition frame_ok_tail : jsstring := jsq "e':'text','content':'ok'}" ++ [LF].

(** Scenario A: two text deltas, a tool call, the sentinel. *)
Definition body_milk : ReadStream :=
  deliver [frame_sure ++ frame_adding; frame_tool ++ frame_done] ReadDone.

(** A tool call is read, then the transport fails. *)
Definition body_tool_then_error : ReadStream :=
  ReadChunk frame_tool ReadRejects.

Definition body_two_tools_then_error : ReadStream :=
  ReadChunk frame_tool (ReadChunk frame_tool ReadRejects).

Definition body_text_then_error : ReadStream :=
  ReadChunk frame_sure ReadRejects.


(** The body of a response that refuses the request. *)
Definition body_unauthorized : ReadStream :=
  ReadChunk (jsq "{'detail':'Not authenticated'}") ReadDone.

(** Scenario B: one text delta, the sentinel. *)
Definition body_hello : ReadStream :=
  ReadChunk (jsq "data: {'type':'text','content':'Hi there!'}" ++ [LF; LF]
             ++ frame_done) ReadDone.

(* ================================================================ *)
(** * Properties *)

(** ** Strings *)

Lemma str_eqb_spec (a b : jsstring) : str_eqb a b = true <-> a = b.
Proof.
  revert b; induction a as [|x a IH]; intros [|y b]; simpl;
    try (split; [discriminate | discriminate]); try tauto.
  rewrite andb_true_iff, N.eqb_eq, IH.
  split; [intros [-> ->]; reflexivity | intros H; inversion H; auto].
Qed.

Lemma split_not_nil (sep : N) (s : jsstring) : split sep s <> [].
Proof.
  destruct s as [|c s]; simpl; [discriminate|].
  destruct (c =? sep); [discriminate|].
  destruct (split sep s); discriminate.
Qed.

(** Splitting distributes over a separator. *)
Lemma split_app_sep (sep : N) (a b : jsstring) :
  split sep (a ++ sep :: b) = split sep a ++ split sep b.
Proof.
  induction a as [|c a IH]; simpl.
  - rewrite N.eqb_refl. reflexivity.
  - destruct (c =? sep); [rewrite IH; reflexivity|].
    rewrite IH.
    destruct (split sep a) as [|seg segs] eqn:E;
      [exfalso; exact (split_not_nil _ _ E)|].
    reflexivity.
Qed.

Lemma ends_line_inv (chunk : jsstring) :
  ends_line chunk = true ->
  chunk = [] \/ exists body, chunk = body ++ [LF].
Proof.
  unfold ends_line. intros H.
  destruct (rev chunk) as [|c r] eqn:E.
  - left. apply (f_equal (@rev N)) in E. rewrite rev_involutive in E.
    exact E.
  - right. apply N.eqb_eq in H. subst c. exists (rev r).
    apply (f_equal (@rev N)) in E. rewrite rev_involutive in E.
    exact E.
Qed.

(** ** [JSON.parse] never runs out of fuel *)

Lemma skip_ws_le (s r : jsstring) :
  JSON.skip_ws s = r -> (List.length r <= List.length s)%nat.
Proof.
  intros <-. induction s as [|c s IH]; simpl; [lia|].
  destruct (JSON.is_ws c); simpl; lia.
Qed.

Lemma digits_le (s ds r : jsstring) :
  JSON.digits s = (ds, r) -> (List.length r <= List.length s)%nat.
Proof.
  revert ds r; induction s as [|c s IH]; simpl; intros ds r H.
  - inversion H; subst. simpl. lia.
  - destruct (JSON.is_digit c).
    + destruct (JSON.digits s) as [ds' r'] eqn:E. inversion H; subst.
      specialize (IH _ _ eq_refl). lia.
    + inversion H; subst. simpl. lia.
Qed.

Lemma string_chars_shrinks (n : nat) :
  forall (s acc str rest : jsstring),
    (List.length s <= n)%nat ->
    JSON.string_chars s acc = Some (str, rest) ->
    (List.length rest < List.length s)%nat.
Proof.
  induction n as [|n IH]; intros s acc str rest Hn H.
  - destruct s; [discriminate|simpl in Hn; lia].
  - destruct s as [|c s1]; [discriminate|].
    cbn [JSON.string_chars] in H. simpl in Hn |- *.
    destruct (c =? 34); [inversion H; subst; lia|].
    destruct (c =? 92).
    + destruct s1 as [|e s2]; [discriminate|].
      destruct (e =? 117).
      * destruct s2 as [|h1 [|h2 [|h3 [|h4 s3]]]]; try discriminate.
        destruct (JSON.hex4 h1 h2 h3 h4); [|discriminate].
        apply IH in H; simpl in *; lia.
      * destruct (JSON.simple_escape e); [|discriminate].
        apply IH in H; simpl in *; lia.
    + destruct (c <? 32); [discriminate|].
      apply IH in H; lia.
Qed.

Lemma number_shrinks (s lexeme rest : jsstring) :
  JSON.number s = Some (lexeme, rest) ->
  (List.length rest < List.length s)%nat.
Proof.
  unfold JSON.number. intros H.
  repeat (match type of H with
          | context [JSON.digits ?y] =>
              let E := fresh "E" in
              destruct (JSON.digits y) as [? ?] eqn:E; apply digits_le in E
          | context [N.eqb ?a ?b] => destruct (N.eqb a b)
          | context [JSON.is_digit ?a] => destruct (JSON.is_digit a)
          | context [match ?x with [] => _ | _ :: _ => _ end] =>
              is_var x; destruct x
          end; cbn beta iota zeta delta [negb orb] in H;
          try discriminate H);
    inversion H; subst; simpl in *; lia.
Qed.

Lemma startsWith_length (s prefix : jsstring) :
  startsWith s prefix = true ->
  (List.length prefix <= List.length s)%nat.
Proof.
  revert s; induction prefix as [|p prefix IH]; intros s H; simpl in *;
    [lia|].
  destruct s as [|c s]; [discriminate|].
  apply andb_true_iff in H. destruct H as [_ H]. apply IH in H.
  simpl. lia.
Qed.

Lemma keyword_shrinks (s rest : jsstring) (v : JsValue) :
  JSON.keyword s = Some (v, rest) ->
  (List.length rest < List.length s)%nat.
Proof.
  unfold JSON.keyword. intros H.
  destruct (startsWith s (js "true")) eqn:E1.
  { apply startsWith_length in E1.
    assert (rest = skipn 4 s) as -> by congruence.
    rewrite length_skipn. change (List.length (js "true")) with 4%nat in E1.
    lia. }
  destruct (startsWith s (js "false")) eqn:E2.
  { apply startsWith_length in E2.
    assert (rest = skipn 5 s) as -> by congruence.
    rewrite length_skipn. change (List.length (js "false")) with 5%nat in E2.
    lia. }
  destruct (startsWith s (js "null")) eqn:E3; [|discriminate].
  apply startsWith_length in E3.
  assert (rest = skipn 4 s) as -> by congruence.
  rewrite length_skipn. change (List.length (js "null")) with 4%nat in E3.
  lia.
Qed.

(** A value that is read leaves a strictly shorter rest. *)
Lemma descent_shrinks (n : nat) :
  (forall s v rest,
      JSON.value n s = JSON.Parsed v rest ->
      (List.length rest < List.length s)%nat)
  /\ (forall s acc v rest,
         JSON.elements n s acc = JSON.Parsed v rest ->
         (List.length rest < List.length s)%nat)
  /\ (forall s acc v rest,
         JSON.members n s acc = JSON.Parsed v rest ->
         (List.length rest < List.length s)%nat).
Proof.
  induction n as [|n (IHv & IHe & IHm)];
    [repeat split; intros; discriminate|].
  repeat split.
  - intros s v rest H. cbn [JSON.value] in H.
    destruct s as [|c s1]; [discriminate|].
    destruct (c =? 123).
    { destruct (JSON.skip_ws s1) as [|c1 s2] eqn:E; [discriminate|].
      apply skip_ws_le in E.
      destruct (c1 =? 125); [inversion H; subst; simpl in *; lia|].
      apply IHm in H. simpl in *. lia. }
    destruct (c =? 91).
    { destruct (JSON.skip_ws s1) as [|c1 s2] eqn:E; [discriminate|].
      apply skip_ws_le in E.
      destruct (c1 =? 93); [inversion H; subst; simpl in *; lia|].
      apply IHe in H. simpl in *. lia. }
    destruct (c =? 34).
    { destruct (JSON.string_chars s1 []) as [[str r]|] eqn:E;
        [|discriminate].
      apply (string_chars_shrinks _ _ _ _ _ (le_n _)) in E.
      inversion H; subst. simpl. lia. }
    destruct ((c =? 45) || JSON.is_digit c).
    { destruct (JSON.number (c :: s1)) as [[lexeme r]|] eqn:E;
        [|discriminate].
      apply number_shrinks in E. inversion H; subst. exact E. }
    destruct (JSON.keyword (c :: s1)) as [[v' r]|] eqn:E; [|discriminate].
    apply keyword_shrinks in E. inversion H; subst. exact E.
  - intros s acc v rest H. cbn [JSON.elements] in H.
    destruct (JSON.value n s) as [v0 r0| |] eqn:Ev; try discriminate.
    apply IHv in Ev.
    destruct (JSON.skip_ws r0) as [|c s1] eqn:E; [discriminate|].
    apply skip_ws_le in E.
    destruct (c =? 44).
    { apply IHe in H.
      pose proof (skip_ws_le s1 _ eq_refl). simpl in *. lia. }
    destruct (c =? 93); [|discriminate].
    inversion H; subst. simpl in *. lia.
  - intros s acc v rest H. cbn [JSON.members] in H.
    destruct s as [|q s1]; [discriminate|].
    destruct (negb (q =? 34)); [discriminate|].
    destruct (JSON.string_chars s1 []) as [[key s2]|] eqn:Ek;
      [|discriminate].
    apply (string_chars_shrinks _ _ _ _ _ (le_n _)) in Ek.
    destruct (JSON.skip_ws s2) as [|colon s3] eqn:E2; [discriminate|].
    apply skip_ws_le in E2.
    destruct (negb (colon =? 58)); [discriminate|].
    destruct (JSON.value n (JSON.skip_ws s3)) as [v0 r0| |] eqn:Ev;
      try discriminate.
    apply IHv in Ev. pose proof (skip_ws_le s3 _ eq_refl).
    destruct (JSON.skip_ws r0) as [|c s4] eqn:E4; [discriminate|].
    apply skip_ws_le in E4.
    destruct (c =? 44).
    { apply IHm in H.
      pose proof (skip_ws_le s4 _ eq_refl). simpl in *. lia. }
    destruct (c =? 125); [|discriminate].
    inversion H; subst. simpl in *. lia.
Qed.

(** Two units of fuel for each code unit are enough. *)
Lemma descent_has_fuel (n : nat) :
  (forall s,
      (2 * List.length s + 1 <= n)%nat ->
      JSON.value n s <> JSON.OutOfFuel)
  /\ (forall s acc,
         (2 * List.length s + 2 <= n)%nat ->
         JSON.elements n s acc <> JSON.OutOfFuel)
  /\ (forall s acc,
         (2 * List.length s + 2 <= n)%nat ->
         JSON.members n s acc <> JSON.OutOfFuel).
Proof.
  induction n as [|n (IHv & IHe & IHm)];
    [repeat split; intros; lia|].
  repeat split.
  - intros s Hn. cbn [JSON.value].
    destruct s as [|c s1]; [discriminate|]. simpl in Hn.
    destruct (c =? 123).
    { destruct (JSON.skip_ws s1) as [|c1 s2] eqn:E; [discriminate|].
      apply skip_ws_le in E.
      destruct (c1 =? 125); [discriminate|].
      apply IHm. simpl in *. lia. }
    destruct (c =? 91).
    { destruct (JSON.skip_ws s1) as [|c1 s2] eqn:E; [discriminate|].
      apply skip_ws_le in E.
      destruct (c1 =? 93); [discriminate|].
      apply IHe. simpl in *. lia. }
    destruct (c =? 34).
    { destruct (JSON.string_chars s1 []) as [[str r]|]; discriminate. }
    destruct ((c =? 45) || JSON.is_digit c).
    { destruct (JSON.number (c :: s1)) as [[lexeme r]|]; discriminate. }
    destruct (JSON.keyword (c :: s1)) as [[v' r]|]; discriminate.
  - intros s acc Hn. cbn [JSON.elements].
    destruct (JSON.value n s) as [v0 r0| |] eqn:Ev.
    + apply (proj1 (descent_shrinks n)) in Ev.
      destruct (JSON.skip_ws r0) as [|c s1] eqn:E; [discriminate|].
      apply skip_ws_le in E.
      destruct (c =? 44).
      { apply IHe. pose proof (skip_ws_le s1 _ eq_refl).
        simpl in *. lia. }
      destruct (c =? 93); discriminate.
    + discriminate.
    + exfalso. apply (IHv s); [lia|exact Ev].
  - intros s acc Hn. cbn [JSON.members].
    destruct s as [|q s1]; [discriminate|]. simpl in Hn.
    destruct (negb (q =? 34)); [discriminate|].
    destruct (JSON.string_chars s1 []) as [[key s2]|] eqn:Ek;
      [|discriminate].
    apply (string_chars_shrinks _ _ _ _ _ (le_n _)) in Ek.
    destruct (JSON.skip_ws s2) as [|colon s3] eqn:E2; [discriminate|].
    apply skip_ws_le in E2.
    destruct (negb (colon =? 58)); [discriminate|].
    pose proof (skip_ws_le s3 _ eq_refl) as H3.
    destruct (JSON.value n (JSON.skip_ws s3)) as [v0 r0| |] eqn:Ev.
    + apply (proj1 (descent_shrinks n)) in Ev.
      destruct (JSON.skip_ws r0) as [|c s4] eqn:E4; [discriminate|].
      apply skip_ws_le in E4.
      destruct (c =? 44).
      { apply IHm. pose proof (skip_ws_le s4 _ eq_refl).
        simpl in *. lia. }
      destruct (c =? 125); discriminate.
    + discriminate.
    + exfalso. apply (IHv (JSON.skip_ws s3)); [simpl in *; lia|exact Ev].
Qed.

(** [JSON.parse] answers [None] only for a text that is not JSON. *)
Lemma JSON_parse_fuel (s : jsstring) :
  JSON.value (JSON.fuel_for s) s <> JSON.OutOfFuel.
Proof.
  apply (proj1 (descent_has_fuel (JSON.fuel_for s))).
  unfold JSON.fuel_for. lia.
Qed.

(** ** The line loop and its events *)

Lemma line_step_decode (st : Session) (t : TurnState) (line : jsstring) :
  line_step st t line =
  match decode_line line with
  | None => (st, t, Continue)
  | Some Terminal => (st, t, Break)
  | Some e => (apply_event (st, t) e, Continue)
  end.
Proof.
  unfold line_step, decode_line, classify.
  destruct (startsWith line (js "data: ")); [|reflexivity].
  destruct (str_eqb (trim (slice 6 line)) (js "[DONE]")); [reflexivity|].
  destruct (JSON.parse (trim (slice 6 line))) as [parsed|]; [|reflexivity].
  destruct (Get parsed (js "type")) as [ty|]; [|reflexivity].
  destruct (strict_eq_string ty (js "text")).
  - destruct (Get parsed (js "content")) as [payload|]; [|reflexivity].
    simpl. destruct (plus (assistantContent t) payload); reflexivity.
  - destruct (strict_eq_string ty (js "tool_call")); reflexivity.
Qed.

Lemma for_lines_events (lines : list jsstring) (st : Session) (t : TurnState) :
  for_lines st t lines = fold_left apply_event (events_of_lines lines) (st, t).
Proof.
  revert st t; induction lines as [|line lines IH]; intros st t; simpl;
    [reflexivity|].
  rewrite line_step_decode.
  destruct (decode_line line) as [[payload| | |]|]; simpl.
  - destruct (apply_event (st, t) (TextDelta payload)) as [st' t'] eqn:E.
    simpl in E. rewrite E. apply IH.
  - apply IH.
  - reflexivity.
  - apply IH.
  - apply IH.
Qed.

Lemma chunk_step_events (chunk : jsstring) (st : Session) (t : TurnState) :
  chunk_step st t chunk
  = fold_left apply_event (events_of_chunk chunk) (st, t).
Proof. apply for_lines_events. Qed.

(** The read loop is the fold of [apply_event] over the events of the
    chunks read; it hands its locals on exactly when the body ends
    without a rejection. *)
Lemma read_loop_events (body : ReadStream) (st : Session) (t : TurnState) :
  read_loop st t body =
  let (st', t') :=
    fold_left apply_event (stream_events (chunks_of body)) (st, t) in
  (st', if ends_normally body then Some t' else None).
Proof.
  revert st t; induction body as [|chunk rest IH|]; intros st t; simpl;
    try reflexivity.
  unfold stream_events in *. simpl. rewrite fold_left_app.
  rewrite chunk_step_events.
  destruct (fold_left apply_event (events_of_chunk chunk) (st, t))
    as [st1 t1].
  apply IH.
Qed.

(** ** What the loop leaves in the session and in its locals *)

(** Setters copy every field, so they are reduced together with the
    projections, never unfolded alone. *)
Ltac session_simpl :=
  cbv [finally_block catch_block commit accept fetch console_error
       onTaskMutation setIsTyping setMessages setCurrentResponse
       setInputValue
       messages isTyping currentResponse inputValue taskMutations requests
       consoleErrors assistantContent needsSync].

Lemma setCurrentResponse_idem (r r' : jsstring) (st : Session) :
  setCurrentResponse r (setCurrentResponse r' st) = setCurrentResponse r st.
Proof. reflexivity. Qed.

Lemma setCurrentResponse_same (st : Session) :
  setCurrentResponse (currentResponse st) st = st.
Proof. destruct st; reflexivity. Qed.

(** The events of a turn touch one field of the session, the partial
    text on display. *)
Lemma fold_apply_event_session (events : list StreamEvent)
  (st : Session) (t : TurnState) :
  exists r, fst (fold_left apply_event events (st, t))
            = setCurrentResponse r st.
Proof.
  revert st t; induction events as [|e events IH]; intros st t; simpl.
  - exists (currentResponse st). symmetry. apply setCurrentResponse_same.
  - destruct e as [payload| | |]; simpl; try apply IH.
    destruct (plus (assistantContent t) payload) as [text|]; [|apply IH].
    destruct (IH (setCurrentResponse text st)
                {| assistantContent := text; needsSync := needsSync t |})
      as [r Hr].
    exists r. rewrite Hr. apply setCurrentResponse_idem.
Qed.

(** Monotonic accumulation: the text grows by the string form of each
    text payload, in order. *)
Lemma fold_apply_event_content (events : list StreamEvent)
  (st : Session) (t : TurnState) :
  assistantContent (snd (fold_left apply_event events (st, t)))
  = assistantContent t ++ List.concat (map payload_text (text_payloads events)).
Proof.
  revert st t; induction events as [|e events IH]; intros st t; simpl.
  - rewrite app_nil_r. reflexivity.
  - destruct e as [payload| | |]; simpl; try (rewrite IH; reflexivity).
    unfold payload_text at 1, plus.
    destruct (ToString payload) as [s|]; simpl.
    + rewrite IH. simpl. rewrite app_assoc. reflexivity.
    + apply IH.
Qed.

(** The flag is set by a tool invocation and never reset. *)
Lemma fold_apply_event_sync (events : list StreamEvent)
  (st : Session) (t : TurnState) :
  needsSync (snd (fold_left apply_event events (st, t)))
  = needsSync t || existsb is_tool_invocation events.
Proof.
  revert st t; induction events as [|e events IH]; intros st t; simpl.
  - rewrite orb_false_r. reflexivity.
  - destruct e as [payload| | |]; simpl; try apply IH.
    + destruct (plus (assistantContent t) payload); rewrite IH; reflexivity.
    + rewrite IH. simpl. rewrite orb_true_r. reflexivity.
Qed.

Lemma existsb_count (events : list StreamEvent) :
  (if existsb is_tool_invocation events then 1 else 0)%nat
  = Nat.min (List.length (filter is_tool_invocation events)) 1.
Proof.
  induction events as [|e events IH]; simpl; [reflexivity|].
  destruct (is_tool_invocation e); simpl; [|exact IH].
  destruct (List.length (filter is_tool_invocation events)); reflexivity.
Qed.

(** ** The whole call *)

(** A turn whose stream is read to its end. *)
Lemma handleSend_completed (env : TurnEnv) (st : Session)
  (textContent : jsstring) (status : N) (body : ReadStream) :
  guard st = Some textContent ->
  response env = FetchResolves status (Some body) ->
  ends_normally body = true ->
  let events := stream_events (chunks_of body) in
  let t :=
    {| assistantContent := List.concat (map payload_text (text_payloads events));
       needsSync := existsb is_tool_invocation events |} in
  handleSend env st =
  {| messages := messages st ++ [userMsg env textContent; assistantMsg env t];
     isTyping := false;
     currentResponse := [];
     inputValue := [];
     taskMutations :=
       (taskMutations st + if needsSync t then 1 else 0)%nat;
     requests := requests st ++ [textContent];
     consoleErrors := consoleErrors st |}.
Proof.
  intros Hg Hr Hend events t.
  unfold handleSend, try_block. rewrite Hg, Hr.
  rewrite read_loop_events, Hend. fold events.
  pose proof (fold_apply_event_session events
                (fetch textContent (accept env textContent st)) turn_start)
    as [r Hs].
  pose proof (fold_apply_event_content events
                (fetch textContent (accept env textContent st)) turn_start)
    as Hc.
  pose proof (fold_apply_event_sync events
                (fetch textContent (accept env textContent st)) turn_start)
    as Hn.
  destruct (fold_left apply_event events
              (fetch textContent (accept env textContent st), turn_start))
    as [st' t'].
  simpl in Hs, Hc, Hn. subst st'.
  destruct t' as [text sync]. simpl in Hc, Hn. subst text sync.
  unfold assistantMsg, t.
  destruct (existsb is_tool_invocation events); session_simpl;
    rewrite <- app_assoc; f_equal; lia.
Qed.

(** A turn whose [try] block raises. *)
Lemma handleSend_failed (env : TurnEnv) (st : Session)
  (textContent : jsstring) :
  guard st = Some textContent ->
  turn_completes env = false ->
  exists (partial : jsstring) (sent : list jsstring),
    handleSend env st =
    {| messages := messages st ++ [userMsg env textContent; errorMsg env];
       isTyping := false;
       currentResponse := partial;
       inputValue := [];
       taskMutations := taskMutations st;
       requests := requests st ++ sent;
       consoleErrors := S (consoleErrors st) |}.
Proof.
  intros Hg Hc. unfold turn_completes in Hc.
  unfold handleSend, try_block. rewrite Hg.
  destruct (response env) as [| |status [body|]].
  - exists [], []. session_simpl.
    rewrite <- app_assoc, app_nil_r. reflexivity.
  - exists [], [textContent]. session_simpl.
    rewrite <- app_assoc. reflexivity.
  - rewrite read_loop_events, Hc.
    pose proof (fold_apply_event_session (stream_events (chunks_of body))
                  (fetch textContent (accept env textContent st)) turn_start)
      as [r Hs].
    destruct (fold_left apply_event (stream_events (chunks_of body))
                (fetch textContent (accept env textContent st), turn_start))
      as [st' t'].
    simpl in Hs. subst st'.
    exists r, [textContent]. session_simpl.
    rewrite <- app_assoc. reflexivity.
  - exists [], [textContent]. session_simpl.
    rewrite <- app_assoc. reflexivity.
Qed.

Lemma handleSend_taskMutations (env : TurnEnv) (st : Session)
  (textContent : jsstring) :
  guard st = Some textContent ->
  taskMutations (handleSend env st)
  = (taskMutations st
     + if turn_completes env then Nat.min (tool_invocations env) 1 else 0)%nat.
Proof.
  intros Hg. unfold tool_invocations.
  destruct (turn_completes env) eqn:Hc.
  - unfold turn_completes, turn_chunks in *.
    destruct (response env) as [| |status [body|]] eqn:Hr;
      try discriminate.
    rewrite (handleSend_completed env st textContent status body Hg Hr Hc).
    cbv [taskMutations needsSync]. rewrite existsb_count. reflexivity.
  - destruct (handleSend_failed env st textContent Hg Hc)
      as (partial & sent & H).
    rewrite H. cbv [taskMutations]. lia.
Qed.

Lemma read_loop_keeps_flag (body : ReadStream) (st : Session)
  (t : TurnState) :
  needsSync t = true ->
  match snd (read_loop st t body) with
  | Some t' => needsSync t' = true
  | None => ends_normally body = false
  end.
Proof.
  intros Ht. rewrite read_loop_events.
  pose proof (fold_apply_event_sync (stream_events (chunks_of body)) st t)
    as Hn.
  destruct (fold_left apply_event (stream_events (chunks_of body)) (st, t))
    as [st' t'].
  simpl in *. destruct (ends_normally body); [|reflexivity].
  rewrite Hn, Ht. reflexivity.
Qed.

Lemma handleSend_guard_none (env : TurnEnv) (st : Session) :
  guard st = None -> handleSend env st = st.
Proof. intros H. unfold handleSend. rewrite H. reflexivity. Qed.

(** Whatever becomes of the request, an accepted call ends idle. *)
Lemma handleSend_returns_idle (env : TurnEnv) (st : Session)
  (textContent : jsstring) :
  guard st = Some textContent -> isTyping (handleSend env st) = false.
Proof.
  intros Hg. unfold handleSend. rewrite Hg.
  destruct (try_block env textContent (accept env textContent st))
    as [st2 [|]]; reflexivity.
Qed.

(** While the chunks of an accepted turn are being read the panel is
    typing, and a second call of [handleSend], whatever was typed
    meanwhile, changes nothing. *)
Lemma mid_turn_rejects_submit (env env' : TurnEnv) (st : Session)
  (textContent typed : jsstring) (chunks : list jsstring) :
  let mid :=
    fst (read_loop (fetch textContent (accept env textContent st))
           turn_start (deliver chunks ReadDone)) in
  isTyping mid = true
  /\ handleSend env' (setInputValue typed mid) = setInputValue typed mid.
Proof.
  intros mid.
  assert (H : isTyping mid = true).
  { unfold mid. rewrite read_loop_events.
    pose proof (fold_apply_event_session
                  (stream_events (chunks_of (deliver chunks ReadDone)))
                  (fetch textContent (accept env textContent st)) turn_start)
      as [r Hr].
    destruct (fold_left apply_event
                (stream_events (chunks_of (deliver chunks ReadDone)))
                (fetch textContent (accept env textContent st), turn_start))
      as [st' t'].
    simpl in Hr |- *. subst st'. reflexivity. }
  split; [exact H|].
  apply handleSend_guard_none. unfold guard.
  destruct (trim (inputValue (setInputValue typed mid))); [reflexivity|].
  change (isTyping (setInputValue typed mid)) with (isTyping mid).
  rewrite H. reflexivity.
Qed.

(** ** Chunk boundaries and the sentinel *)

Lemma decode_line_terminal (line : jsstring) :
  decode_line line = Some Terminal <-> is_sentinel line = true.
Proof.
  unfold decode_line, is_sentinel, classify.
  destruct (startsWith line (js "data: ")); cbn [andb];
    [|split; discriminate].
  destruct (str_eqb (trim (slice 6 line)) (js "[DONE]"));
    [split; reflexivity|].
  split; [|discriminate].
  destruct (JSON.parse (trim (slice 6 line))) as [record|];
    [|discriminate].
  destruct (Get record (js "type")) as [ty|]; [|discriminate].
  destruct (strict_eq_string ty (js "text")).
  - destruct (Get record (js "content")); discriminate.
  - destruct (strict_eq_string ty (js "tool_call")); discriminate.
Qed.

Lemma line_step_sentinel (st : Session) (t : TurnState) (line : jsstring) :
  is_sentinel line = true -> line_step st t line = (st, t, Break).
Proof.
  intros H. rewrite line_step_decode.
  apply decode_line_terminal in H. rewrite H. reflexivity.
Qed.

(** Whatever follows a sentinel line in the list of lines is skipped. *)
Lemma for_lines_sentinel (before after : list jsstring) (line : jsstring)
  (st : Session) (t : TurnState) :
  is_sentinel line = true ->
  for_lines st t (before ++ line :: after) = for_lines st t before.
Proof.
  intros H. revert st t.
  induction before as [|l before IH]; intros st t; simpl.
  - rewrite (line_step_sentinel st t line H). reflexivity.
  - destruct (line_step st t l) as [[st' t'] [|]]; [apply IH|reflexivity].
Qed.

Lemma events_of_lines_app (l1 l2 : list jsstring) :
  forallb (fun line => negb (is_sentinel line)) l1 = true ->
  events_of_lines (l1 ++ l2) = events_of_lines l1 ++ events_of_lines l2.
Proof.
  induction l1 as [|line l1 IH]; simpl; intros H; [reflexivity|].
  apply andb_true_iff in H. destruct H as [Hl H1].
  apply negb_true_iff in Hl.
  destruct (decode_line line) as [e|] eqn:E; [|apply IH; exact H1].
  destruct e; simpl; try (rewrite IH by exact H1; reflexivity).
  apply decode_line_terminal in E. congruence.
Qed.

(** A chunk that stops at the end of a line and carries no sentinel can
    be merged with the chunk that follows it. *)
Lemma events_of_chunk_app (a b : jsstring) :
  ends_line a = true ->
  sentinel_free a = true ->
  events_of_chunk (a ++ b) = events_of_chunk a ++ events_of_chunk b.
Proof.
  intros He Hs. destruct (ends_line_inv a He) as [->|[body ->]].
  - reflexivity.
  - unfold sentinel_free, events_of_chunk in *.
    rewrite <- app_assoc. cbn [app].
    rewrite (split_app_sep LF body b).
    rewrite (split_app_sep LF body []) in *. cbn [split] in *.
    rewrite forallb_app in Hs. apply andb_true_iff in Hs.
    destruct Hs as [Hs _].
    rewrite !events_of_lines_app by exact Hs.
    change (events_of_lines [[]]) with (@nil StreamEvent).
    rewrite app_nil_r. reflexivity.
Qed.

Lemma chunks_of_deliver (chunks : list jsstring) :
  chunks_of (deliver chunks ReadDone) = chunks
  /\ ends_normally (deliver chunks ReadDone) = true.
Proof.
  induction chunks as [|c chunks [IH1 IH2]]; simpl; [tauto|].
  rewrite IH1. tauto.
Qed.

Lemma stream_events_merge (chunks : list jsstring) (last : jsstring) :
  forallb ends_line chunks = true ->
  forallb sentinel_free chunks = true ->
  stream_events (chunks ++ [last])
  = stream_events [List.concat chunks ++ last].
Proof.
  unfold stream_events.
  induction chunks as [|c chunks IH]; simpl; intros He Hs; [reflexivity|].
  apply andb_true_iff in He, Hs.
  destruct He as [He1 He], Hs as [Hs1 Hs].
  rewrite (IH He Hs). simpl. rewrite !app_nil_r, <- app_assoc.
  symmetry. apply events_of_chunk_app; assumption.
Qed.

(** ** Message ids *)










(* ================================================================ *)
(** * The claims *)

(** C1 (as amended): the decoder keeps no carry-over between chunks;
    every chunk is split into lines on its own.  When every chunk but
    the last stops at the end of a line and carries no terminal
    sentinel, feeding the chunks one after the other yields the same
    events, and leaves the read loop in the same state, as feeding
    their concatenation as one chunk. *)
Theorem chunking_at_line_ends (chunks : list jsstring) (last : jsstring) :
  forallb ends_line chunks = true ->
  forallb sentinel_free chunks = true ->
  stream_events (chunks ++ [last])
  = stream_events [List.concat chunks ++ last]
  /\ forall (st : Session) (t : TurnState),
       read_loop st t (deliver (chunks ++ [last]) ReadDone)
       = read_loop st t (deliver [List.concat chunks ++ last] ReadDone).
Proof.
  intros He Hs.
  pose proof (stream_events_merge chunks last He Hs) as H.
  split; [exact H|].
  intros st t. rewrite !read_loop_events.
  destruct (chunks_of_deliver (chunks ++ [last])) as [-> ->].
  destruct (chunks_of_deliver [List.concat chunks ++ last]) as [-> ->].
  rewrite H. reflexivity.
Qed.

(** C2 (as amended): in a turn that was accepted and in which at least
    one tool-invocation event is observed, the flag, once set, stays set
    to the end of the read loop; the sync notification fires, once, when
    the stream is then read to its end, and does not fire when the turn
    fails: the flag is a local of the [try] block and the failure path
    never reads it. *)
Theorem tool_invocation_sync_needs_completion (env : TurnEnv)
  (st : Session) (textContent : jsstring) :
  guard st = Some textContent ->
  (1 <= tool_invocations env)%nat ->
  taskMutations (handleSend env st)
  = (if turn_completes env then S (taskMutations st) else taskMutations st)
  /\ forall (body : ReadStream) (st0 : Session) (t0 : TurnState),
       needsSync t0 = true ->
       match snd (read_loop st0 t0 body) with
       | Some t' => needsSync t' = true
       | None => ends_normally body = false
       end.
Proof.
  intros Hg Hk. split.
  - rewrite (handleSend_taskMutations env st textContent Hg).
    destruct (turn_completes env); [|lia].
    rewrite Nat.min_r by exact Hk. lia.
  - intros body st0 t0. apply read_loop_keeps_flag.
Qed.

(** C3 (as amended): on every turn whose [try] block raises (the
    request cannot be set up, the network error, the missing response
    body, a read that rejects), exactly one synthetic assistant message,
    with the fixed apology and the fixed id [error], is appended to the
    history after the user message, none of the accumulated text enters
    the history, and the session is idle again. *)
Theorem failed_turn_appends_one_apology (env : TurnEnv) (st : Session)
  (textContent : jsstring) :
  guard st = Some textContent ->
  turn_completes env = false ->
  messages (handleSend env st)
  = messages st ++ [userMsg env textContent; errorMsg env]
  /\ id (errorMsg env) = js "error"
  /\ role (errorMsg env) = assistant
  /\ content (errorMsg env) = apology
  /\ isTyping (handleSend env st) = false.
Proof.
  intros Hg Hc.
  destruct (handleSend_failed env st textContent Hg Hc)
    as (partial & sent & H).
  rewrite H. repeat split.
Qed.

(** C4 (as amended): once the terminal sentinel has been decoded in a
    chunk, no later line of that chunk is processed: the accumulated
    text, the partial text on display and the flag are those reached
    before the sentinel, whatever follows it in the chunk.  The lines of
    the chunks delivered afterwards are processed as usual. *)
Theorem nothing_after_sentinel_in_chunk (st : Session) (t : TurnState)
  (chunk : jsstring) (before after : list jsstring) (line : jsstring) :
  split LF chunk = before ++ line :: after ->
  is_sentinel line = true ->
  chunk_step st t chunk = for_lines st t before
  /\ forall rest : ReadStream,
       read_loop st t (ReadChunk chunk rest)
       = read_loop (fst (for_lines st t before))
                   (snd (for_lines st t before)) rest.
Proof.
  intros Hsplit Hline.
  assert (H : chunk_step st t chunk = for_lines st t before).
  { unfold chunk_step. rewrite Hsplit. apply for_lines_sentinel.
    exact Hline. }
  split; [exact H|].
  intros rest. simpl. rewrite H.
  destruct (for_lines st t before); reflexivity.
Qed.

(** C5 (as amended): for every accepted turn with k tool-invocation
    events, the sync notification is invoked min(k,1) times when the
    stream is read to its end, and not at all when the turn fails; so
    never more than once, and never without a tool-invocation event. *)
Theorem sync_fires_min_k_1_on_completion (env : TurnEnv) (st : Session)
  (textContent : jsstring) :
  guard st = Some textContent ->
  taskMutations (handleSend env st)
  = (taskMutations st
     + if turn_completes env then Nat.min (tool_invocations env) 1 else 0)%nat
  /\ (taskMutations (handleSend env st) <= S (taskMutations st))%nat
  /\ (tool_invocations env = 0%nat ->
      taskMutations (handleSend env st) = taskMutations st).
Proof.
  intros Hg.
  pose proof (handleSend_taskMutations env st textContent Hg) as H.
  split; [exact H|]. split.
  - rewrite H. destruct (turn_completes env); lia.
  - intros Hk. rewrite H, Hk. destruct (turn_completes env); simpl; lia.
Qed.

(** C6: a turn that completes with text-delta payloads d1..dn commits an
    assistant message whose content is the concatenation of the string
    forms of d1..dn in arrival order, the plain concatenation when the
    payloads are strings, and the empty string when n = 0. *)
Theorem committed_content_is_concatenation (env : TurnEnv) (st : Session)
  (textContent : jsstring) (status : N) (body : ReadStream) :
  guard st = Some textContent ->
  response env = FetchResolves status (Some body) ->
  ends_normally body = true ->
  let payloads := text_payloads (stream_events (chunks_of body)) in
  exists committed : ChatMessage,
    messages (handleSend env st)
    = messages st ++ [userMsg env textContent; committed]
    /\ role committed = assistant
    /\ content committed = List.concat (map payload_text payloads)
    /\ (forall ds : list jsstring,
           payloads = map VString ds -> content committed = List.concat ds)
    /\ (payloads = [] -> content committed = []).
Proof.
  intros Hg Hr Hend payloads.
  rewrite (handleSend_completed env st textContent status body Hg Hr Hend).
  eexists. split; [reflexivity|].
  fold payloads. cbv [role content assistantMsg assistantContent].
  repeat split.
  - intros ds ->. rewrite map_map. cbn [payload_text ToString].
    rewrite map_id. reflexivity.
  - intros ->. reflexivity.
Qed.

(** C7: a call of [handleSend] with an input that is empty after
    trimming, or while a turn is in flight, changes nothing: the history,
    the partial text, the in-flight flag and the input are as before, no
    request is opened and nothing is notified. *)
Theorem rejected_submit_is_noop (env : TurnEnv) (st : Session) :
  trim (inputValue st) = [] \/ isTyping st = true ->
  handleSend env st = st.
Proof.
  intros H. unfold handleSend, guard.
  destruct (trim (inputValue st)) as [|c s]; [reflexivity|].
  destruct H as [H|H]; [discriminate|]. rewrite H. reflexivity.
Qed.


(** C9: [fetchHistory] replaces the whole history by the sequence it
    received; when the fetch fails it leaves the history and the rest of
    the panel as they were, appends no message and only logs to the
    console. *)
Theorem fetchHistory_replaces_or_keeps (st : Session) :
  (forall history : list ChatMessage,
      messages (fetchHistory (Some history) st) = history
      /\ consoleErrors (fetchHistory (Some history) st) = consoleErrors st)
  /\ messages (fetchHistory None st) = messages st
  /\ currentResponse (fetchHistory None st) = currentResponse st
  /\ isTyping (fetchHistory None st) = isTyping st
  /\ inputValue (fetchHistory None st) = inputValue st
  /\ taskMutations (fetchHistory None st) = taskMutations st
  /\ requests (fetchHistory None st) = requests st
  /\ consoleErrors (fetchHistory None st) = S (consoleErrors st).
Proof. repeat split. Qed.

(** C10: the record [{"type":"text"}], which parses and has no content
    field, is not ignored: [undefined] is turned into the string
    [undefined] and a turn that receives this one frame commits an
    assistant message whose content is that word. *)
Theorem missing_content_commits_undefined (env : TurnEnv) (st : Session)
  (textContent : jsstring) (status : N) :
  guard st = Some textContent ->
  response env
  = FetchResolves status
      (Some (ReadChunk (jsq "data: {'type':'text'}" ++ [LF]) ReadDone)) ->
  JSON.parse (jsq "{'type':'text'}")
  = Some (VObject [(js "type", VString (js "text"))])
  /\ messages (handleSend env st)
     = messages st
       ++ [userMsg env textContent;
           {| id := decimal (now_at_end env + 1); role := assistant;
              content := js "undefined"; timestamp := iso_at_end env |}].
Proof.
  intros Hg Hr. split; [vm_compute; reflexivity|].
  rewrite (handleSend_completed env st textContent status _ Hg Hr eq_refl).
  cbv [messages assistantMsg assistantContent]. do 4 f_equal.
Qed.

(* ================================================================ *)
(** * Further properties of the component *)

(** ** The read loop *)

Lemma read_loop_session (body : ReadStream) (st : Session) (t : TurnState) :
  fst (read_loop st t body)
  = fst (fold_left apply_event (stream_events (chunks_of body)) (st, t)).
Proof.
  rewrite read_loop_events.
  destruct (fold_left apply_event (stream_events (chunks_of body)) (st, t));
    reflexivity.
Qed.

Lemma fold_apply_event_tracks (events : list StreamEvent) (st : Session)
  (t : TurnState) :
  currentResponse st = assistantContent t ->
  currentResponse (fst (fold_left apply_event events (st, t)))
  = assistantContent (snd (fold_left apply_event events (st, t))).
Proof.
  revert st t; induction events as [|e events IH]; intros st t H; simpl;
    [exact H|].
  destruct e as [payload| | |]; simpl; try (apply IH; exact H).
  destruct (plus (assistantContent t) payload) as [text|];
    apply IH; [reflexivity|exact H].
Qed.

Lemma text_payloads_app (a b : list StreamEvent) :
  text_payloads (a ++ b) = text_payloads a ++ text_payloads b.
Proof.
  induction a as [|e a IH]; simpl; [reflexivity|].
  destruct e; simpl; rewrite IH; reflexivity.
Qed.

Lemma displayed_text_app (a b : list jsstring) :
  displayed_text (a ++ b) = displayed_text a ++ displayed_text b.
Proof.
  unfold displayed_text, stream_events.
  rewrite flat_map_app, text_payloads_app, map_app, concat_app.
  reflexivity.
Qed.

Lemma read_loop_display (body : ReadStream) (st : Session) (t : TurnState) :
  currentResponse st = assistantContent t ->
  currentResponse (fst (read_loop st t body))
  = assistantContent t ++ displayed_text (chunks_of body).
Proof.
  intros H. rewrite read_loop_session.
  rewrite (fold_apply_event_tracks _ st t H).
  apply fold_apply_event_content.
Qed.

Lemma read_loop_frame (body : ReadStream) (st : Session) (t : TurnState) :
  exists r : jsstring, fst (read_loop st t body) = setCurrentResponse r st.
Proof.
  rewrite read_loop_session.
  apply fold_apply_event_session.
Qed.

Lemma read_loop_ending (body : ReadStream) (st : Session) (t : TurnState) :
  match snd (read_loop st t body) with
  | Some t' =>
      ends_normally body = true
      /\ t' = snd (fold_left apply_event (stream_events (chunks_of body))
                     (st, t))
  | None => ends_normally body = false
  end.
Proof.
  rewrite read_loop_events.
  destruct (fold_left apply_event (stream_events (chunks_of body)) (st, t))
    as [st' t'].
  simpl. destruct (ends_normally body); [split|]; reflexivity.
Qed.

(** While the stream is read only the partial text changes: the history,
    the in-flight flag, the input, the notifications sent, the requests
    made and the console are as they were, however the body ends. *)
Theorem read_loop_changes_partial_text_only (body : ReadStream)
  (st : Session) (t : TurnState) :
  messages (fst (read_loop st t body)) = messages st
  /\ isTyping (fst (read_loop st t body)) = isTyping st
  /\ inputValue (fst (read_loop st t body)) = inputValue st
  /\ taskMutations (fst (read_loop st t body)) = taskMutations st
  /\ requests (fst (read_loop st t body)) = requests st
  /\ consoleErrors (fst (read_loop st t body)) = consoleErrors st.
Proof.
  destruct (read_loop_frame body st t) as [r ->].
  repeat split.
Qed.

(** When the partial text on display equals the accumulated text before
    the loop, as it does at the start of a turn, it is after the loop the
    accumulated text followed by the string forms of the text payloads
    read, in order; this holds too when a read rejects. *)
Theorem partial_text_is_accumulated_text (body : ReadStream) (st : Session)
  (t : TurnState) :
  currentResponse st = assistantContent t ->
  currentResponse (fst (read_loop st t body))
  = assistantContent t ++ displayed_text (chunks_of body)
  /\ match snd (read_loop st t body) with
     | Some t' => currentResponse (fst (read_loop st t body))
                  = assistantContent t'
     | None => ends_normally body = false
     end.
Proof.
  intros H. split; [apply read_loop_display; exact H|].
  rewrite read_loop_session.
  pose proof (fold_apply_event_tracks (stream_events (chunks_of body)) st t H)
    as Ht.
  rewrite read_loop_events.
  destruct (fold_left apply_event (stream_events (chunks_of body)) (st, t))
    as [st' t'].
  simpl in *. destruct (ends_normally body); [exact Ht|reflexivity].
Qed.

(** The partial text only grows: what is on display after more chunks
    starts with what was on display after fewer. *)
Theorem partial_text_only_grows (chunks more : list jsstring) (st : Session)
  (t : TurnState) :
  currentResponse st = assistantContent t ->
  currentResponse (fst (read_loop st t (deliver (chunks ++ more) ReadDone)))
  = currentResponse (fst (read_loop st t (deliver chunks ReadDone)))
    ++ displayed_text more.
Proof.
  intros H. rewrite !(read_loop_display _ st t H).
  rewrite (proj1 (chunks_of_deliver (chunks ++ more))).
  rewrite (proj1 (chunks_of_deliver chunks)).
  rewrite displayed_text_app, app_assoc. reflexivity.
Qed.

(** ** An accepted call *)

Lemma guard_idle (st : Session) :
  isTyping st = false ->
  truthy (trim (inputValue st)) = true ->
  guard st = Some (trim (inputValue st)).
Proof.
  intros Ht Hs. unfold guard. rewrite Ht.
  destruct (trim (inputValue st)); [discriminate|reflexivity].
Qed.

Lemma guard_send_disabled (st : Session) :
  guard st = None <-> send_disabled st = true.
Proof.
  unfold guard, send_disabled.
  destruct (trim (inputValue st)); simpl; [tauto|].
  destruct (isTyping st); split; (reflexivity || discriminate).
Qed.

Lemma guard_text (st : Session) (textContent : jsstring) :
  guard st = Some textContent ->
  textContent = trim (inputValue st)
  /\ truthy (trim (inputValue st)) = true
  /\ isTyping st = false.
Proof.
  unfold guard. destruct (trim (inputValue st)) as [|c s]; [discriminate|].
  destruct (isTyping st); [discriminate|].
  intros H. inversion H. repeat split.
Qed.

Lemma handleSend_settle (env : TurnEnv) (st : Session)
  (textContent : jsstring) :
  guard st = Some textContent ->
  handleSend env st = settle env textContent (accept env textContent st).
Proof. intros H. unfold handleSend, settle. rewrite H. reflexivity. Qed.

Ltac session_cbn :=
  cbn [finally_block catch_block accept fetch console_error
       onTaskMutation setIsTyping setMessages setCurrentResponse
       setInputValue
       messages isTyping currentResponse inputValue taskMutations requests
       consoleErrors assistantContent needsSync fst snd].

(** From its [try] on, [handleSend] appends the closing message to the
    history it finds, sends at most one request, logs to the console when
    it fails and leaves the panel idle; it clears the partial text only
    when it runs to its end. *)
Lemma settle_spec (env : TurnEnv) (textContent : jsstring) (st : Session) :
  currentResponse st = [] ->
  messages (settle env textContent st) = messages st ++ [closing_message env]
  /\ isTyping (settle env textContent st) = false
  /\ inputValue (settle env textContent st) = inputValue st
  /\ requests (settle env textContent st)
     = requests st ++ match response env with
                      | SetupThrows => []
                      | _ => [textContent]
                      end
  /\ consoleErrors (settle env textContent st)
     = (consoleErrors st + if turn_completes env then 0 else 1)%nat
  /\ currentResponse (settle env textContent st)
     = if turn_completes env then [] else displayed_text (turn_chunks env).
Proof.
  intros Hcur.
  unfold settle, try_block, closing_message, turn_completes, turn_chunks.
  destruct (response env) as [| |status [body|]].
  - session_cbn. rewrite Hcur, app_nil_r, Nat.add_1_r. repeat split.
  - session_cbn. rewrite Hcur, Nat.add_1_r. repeat split.
  - pose proof (read_loop_ending body (fetch textContent st) turn_start)
      as Hend.
    pose proof (read_loop_display body (fetch textContent st) turn_start Hcur)
      as Hdisp.
    pose proof (fold_apply_event_content (stream_events (chunks_of body))
                  (fetch textContent st) turn_start) as Hcont.
    destruct (read_loop_frame body (fetch textContent st) turn_start)
      as [r Hr].
    destruct (read_loop (fetch textContent st) turn_start body)
      as [st' [t'|]]; simpl in Hend, Hdisp, Hr, Hcont; subst st'.
    + destruct Hend as [-> ->]. unfold commit, assistantMsg.
      rewrite Hcont. fold (displayed_text (chunks_of body)).
      destruct (needsSync _); session_cbn; rewrite Nat.add_0_r;
        repeat split.
    + rewrite Hend. session_cbn.
      cbn [currentResponse setCurrentResponse] in Hdisp.
      rewrite Hdisp, Nat.add_1_r. repeat split.
  - session_cbn. rewrite Hcur, Nat.add_1_r. repeat split.
Qed.

Lemma handleSend_accepted (env : TurnEnv) (st : Session)
  (textContent : jsstring) :
  guard st = Some textContent ->
  messages (handleSend env st)
  = messages st ++ [userMsg env textContent; closing_message env]
  /\ isTyping (handleSend env st) = false
  /\ inputValue (handleSend env st) = []
  /\ requests (handleSend env st)
     = requests st ++ match response env with
                      | SetupThrows => []
                      | _ => [textContent]
                      end
  /\ consoleErrors (handleSend env st)
     = (consoleErrors st + if turn_completes env then 0 else 1)%nat
  /\ currentResponse (handleSend env st)
     = if turn_completes env then [] else displayed_text (turn_chunks env).
Proof.
  intros Hg. rewrite (handleSend_settle env st textContent Hg).
  destruct (settle_spec env textContent (accept env textContent st) eq_refl)
    as (Hm & Ht & Hi & Hr & Hc & Hd).
  rewrite Hm, Ht, Hi, Hr, Hc, Hd. session_cbn.
  rewrite <- app_assoc. repeat split.
Qed.

Lemma closing_message_role (env : TurnEnv) :
  role (closing_message env) = assistant.
Proof. unfold closing_message. destruct (turn_completes env); reflexivity. Qed.

Lemma handleSend_noop_iff (env : TurnEnv) (st : Session) :
  send_disabled st = true <-> handleSend env st = st.
Proof.
  split.
  - intros H. apply handleSend_guard_none. apply guard_send_disabled.
    exact H.
  - intros H. apply guard_send_disabled.
    destruct (guard st) as [textContent|] eqn:Hg; [|reflexivity].
    exfalso.
    pose proof (proj1 (handleSend_accepted env st textContent Hg)) as Hm.
    rewrite H in Hm. apply (f_equal (@List.length ChatMessage)) in Hm.
    rewrite length_app in Hm. simpl in Hm. lia.
Qed.

(** An accepted call appends exactly two messages to the history, the
    user message with the trimmed input and then one assistant message;
    it empties the input, sends at most one request, which carries the
    trimmed input, and leaves the panel idle. *)
Theorem accepted_call_appends_a_pair (env : TurnEnv) (st : Session)
  (textContent : jsstring) :
  guard st = Some textContent ->
  messages (handleSend env st)
  = messages st ++ [userMsg env textContent; closing_message env]
  /\ content (userMsg env textContent) = trim (inputValue st)
  /\ role (userMsg env textContent) = user
  /\ role (closing_message env) = assistant
  /\ inputValue (handleSend env st) = []
  /\ isTyping (handleSend env st) = false
  /\ requests (handleSend env st)
     = requests st ++ match response env with
                      | SetupThrows => []
                      | _ => [trim (inputValue st)]
                      end.
Proof.
  intros Hg.
  destruct (handleSend_accepted env st textContent Hg)
    as (Hm & Ht & Hi & Hr & _).
  destruct (guard_text st textContent Hg) as (Htext & _).
  rewrite Hm, Ht, Hi, Hr, closing_message_role. subst textContent.
  repeat split.
Qed.

(** What stays on display after an accepted call: never the three dots;
    the bubble with the partial answer exactly when the turn failed after
    some text had been accumulated, the text of a failed turn being left
    in place; and the console is written to exactly when the turn
    failed. *)
Theorem display_after_call (env : TurnEnv) (st : Session)
  (textContent : jsstring) :
  guard st = Some textContent ->
  shows_thinking (handleSend env st) = false
  /\ currentResponse (handleSend env st)
     = (if turn_completes env then [] else displayed_text (turn_chunks env))
  /\ shows_partial (handleSend env st)
     = negb (turn_completes env) && truthy (displayed_text (turn_chunks env))
  /\ consoleErrors (handleSend env st)
     = (consoleErrors st + if turn_completes env then 0 else 1)%nat.
Proof.
  intros Hg.
  destruct (handleSend_accepted env st textContent Hg)
    as (_ & Ht & _ & _ & Hc & Hd).
  unfold shows_thinking, shows_partial. rewrite Ht, Hc, Hd.
  destruct (turn_completes env); repeat split.
Qed.

(** Between the acceptance of a text and the end of its stream: the user
    message is already in the history, the send button is disabled,
    and exactly one of the two indicators is rendered, the three dots
    until some text has been accumulated and the bubble with that text
    from then on. *)
Theorem display_in_flight (env : TurnEnv) (st : Session)
  (textContent : jsstring) (chunks : list jsstring) :
  let mid :=
    fst (read_loop (fetch textContent (accept env textContent st))
           turn_start (deliver chunks ReadDone)) in
  messages mid = messages st ++ [userMsg env textContent]
  /\ currentResponse mid = displayed_text chunks
  /\ shows_partial mid = truthy (displayed_text chunks)
  /\ shows_thinking mid = negb (truthy (displayed_text chunks))
  /\ send_disabled mid = true.
Proof.
  intros mid.
  assert (Hd : currentResponse mid = displayed_text chunks).
  { unfold mid.
    rewrite (read_loop_display _ (fetch textContent (accept env textContent st))
               turn_start eq_refl).
    rewrite (proj1 (chunks_of_deliver chunks)). reflexivity. }
  destruct (read_loop_frame (deliver chunks ReadDone)
              (fetch textContent (accept env textContent st)) turn_start)
    as [r Hr].
  fold mid in Hr.
  unfold shows_partial, shows_thinking, send_disabled.
  rewrite Hd. rewrite Hr. session_cbn.
  rewrite orb_true_r. repeat split.
Qed.

(** The send button is disabled exactly when a call of [handleSend]
    would change nothing. *)
Theorem send_button_agrees_with_guard (env : TurnEnv) (st : Session) :
  send_disabled st = true <-> handleSend env st = st.
Proof. apply handleSend_noop_iff. Qed.

(** A key changes the session only when it is Enter, without Shift,
    while the send button is enabled. *)
Theorem key_sends_like_the_button (key : jsstring) (shiftKey : bool)
  (env : TurnEnv) (st : Session) :
  fst (onKeyDown key shiftKey env st) = st
  <-> (key <> js "Enter" \/ shiftKey = true \/ send_disabled st = true).
Proof.
  unfold onKeyDown.
  destruct (str_eqb key (js "Enter")) eqn:Hk.
  - apply str_eqb_spec in Hk. destruct shiftKey; simpl.
    + split; [auto|reflexivity].
    + rewrite <- (handleSend_noop_iff env st). split; [auto|].
      intros [H|[H|H]]; [contradiction|discriminate|exact H].
  - simpl. split; [|reflexivity]. intros _. left. intros H.
    apply str_eqb_spec in H. congruence.
Qed.

(** After a failed turn the next text is accepted, and the history then
    ends with the failed exchange followed by the new one, in order. *)
Theorem submit_after_failure (env1 env2 : TurnEnv) (st : Session)
  (text1 text2 : jsstring) :
  guard st = Some text1 ->
  turn_completes env1 = false ->
  truthy (trim text2) = true ->
  messages (handleSend env2 (setInputValue text2 (handleSend env1 st)))
  = messages st
    ++ [userMsg env1 text1; errorMsg env1;
        userMsg env2 (trim text2); closing_message env2]
  /\ isTyping (handleSend env2 (setInputValue text2 (handleSend env1 st)))
     = false.
Proof.
  intros Hg Hc Ht2.
  destruct (handleSend_accepted env1 st text1 Hg) as (Hm & Ht & _).
  assert (Hg2 : guard (setInputValue text2 (handleSend env1 st))
                = Some (trim text2)).
  { apply (guard_idle (setInputValue text2 (handleSend env1 st)));
      [exact Ht|exact Ht2]. }
  destruct (handleSend_accepted env2 _ (trim text2) Hg2) as (Hm2 & Ht2' & _).
  rewrite Hm2, Ht2'. split; [|reflexivity].
  change (messages (setInputValue text2 (handleSend env1 st)))
    with (messages (handleSend env1 st)).
  rewrite Hm. unfold closing_message at 1. rewrite Hc.
  rewrite <- app_assoc. reflexivity.
Qed.

(** ** A session *)

Lemma handleSend_typed (env : TurnEnv) (st : Session) (text : jsstring) :
  isTyping st = false ->
  isTyping (handleSend env (setInputValue text st)) = false
  /\ messages (handleSend env (setInputValue text st))
     = messages st
       ++ (if truthy (trim text)
           then [userMsg env (trim text); closing_message env] else [])
  /\ taskMutations (handleSend env (setInputValue text st))
     = (taskMutations st + if turn_syncs (text, env) then 1 else 0)%nat.
Proof.
  intros Hidle. unfold turn_syncs. cbn [fst snd].
  destruct (truthy (trim text)) eqn:Ht.
  - assert (Hg : guard (setInputValue text st) = Some (trim text)).
    { apply (guard_idle (setInputValue text st)); assumption. }
    destruct (handleSend_accepted env _ (trim text) Hg) as (Hm & Hi & _).
    rewrite Hm, Hi, (handleSend_taskMutations env _ (trim text) Hg).
    unfold tool_invocations. rewrite <- existsb_count.
    repeat split. cbn [andb].
    destruct (turn_completes env); reflexivity.
  - assert (Hg : guard (setInputValue text st) = None).
    { apply guard_send_disabled. unfold send_disabled.
      change (inputValue (setInputValue text st)) with text.
      rewrite Ht. reflexivity. }
    rewrite (handleSend_guard_none env _ Hg).
    cbn [andb]. rewrite app_nil_r, Nat.add_0_r. repeat split. exact Hidle.
Qed.

Lemma run_turns_spec (turns : list (jsstring * TurnEnv)) :
  forall st : Session,
    isTyping st = false ->
    isTyping (run_turns turns st) = false
    /\ messages (run_turns turns st)
       = messages st
         ++ flat_map
              (fun turn =>
                 if truthy (trim (fst turn))
                 then [userMsg (snd turn) (trim (fst turn));
                       closing_message (snd turn)]
                 else [])
              turns
    /\ taskMutations (run_turns turns st)
       = (taskMutations st + List.length (filter turn_syncs turns))%nat.
Proof.
  induction turns as [|[text env] turns IH]; intros st Hidle.
  - simpl. rewrite app_nil_r, Nat.add_0_r. repeat split. exact Hidle.
  - destruct (handleSend_typed env st text Hidle) as (Hi & Hm & Hs).
    destruct (IH _ Hi) as (IHi & IHm & IHs).
    cbn [run_turns flat_map filter fst snd].
    rewrite IHi, IHm, IHs, Hm, Hs, <- app_assoc.
    repeat split.
    destruct (turn_syncs (text, env)); simpl; lia.
Qed.

(** Over any sequence of turns from an idle panel: the panel ends idle;
    the history is only appended to, by one user message and one
    assistant message, in this order, for every text that is not empty
    after trimming, and by nothing for the others. *)
Theorem session_appends_pairs (turns : list (jsstring * TurnEnv))
  (st : Session) :
  isTyping st = false ->
  isTyping (run_turns turns st) = false
  /\ messages (run_turns turns st)
     = messages st
       ++ flat_map
            (fun turn =>
               if truthy (trim (fst turn))
               then [userMsg (snd turn) (trim (fst turn));
                     closing_message (snd turn)]
               else [])
            turns
  /\ (forall turn : jsstring * TurnEnv,
         role (userMsg (snd turn) (trim (fst turn))) = user
         /\ role (closing_message (snd turn)) = assistant).
Proof.
  intros Hidle. destruct (run_turns_spec turns st Hidle) as (Hi & Hm & _).
  repeat split; try assumption. apply closing_message_role.
Qed.

(** Over any sequence of turns from an idle panel, the number of sync
    notifications sent is the number of turns whose text is not empty
    after trimming, whose stream is read to its end and in which a tool
    call was seen. *)
Theorem session_sync_count (turns : list (jsstring * TurnEnv))
  (st : Session) :
  isTyping st = false ->
  taskMutations (run_turns turns st)
  = (taskMutations st + List.length (filter turn_syncs turns))%nat.
Proof. intros Hidle. apply (run_turns_spec turns st Hidle). Qed.

(** ** A history that arrives while a turn is in flight *)

(** [handleSend] updates the history relative to what it finds: when the
    history fetch settles after the text was accepted and before the
    response is read, the fetched history replaces the one that held the
    new user message, and the turn then appends its closing message to
    the fetched history; the panel still ends idle. *)
Theorem history_fetched_while_pending (env : TurnEnv) (st : Session)
  (textContent : jsstring) (history : list ChatMessage) :
  guard st = Some textContent ->
  handleSend env st = settle env textContent (accept env textContent st)
  /\ messages (handleSend env st)
     = messages st ++ [userMsg env textContent; closing_message env]
  /\ messages
       (settle env textContent
          (fetchHistory (Some history) (accept env textContent st)))
     = history ++ [closing_message env]
  /\ isTyping
       (settle env textContent
          (fetchHistory (Some history) (accept env textContent st)))
     = false.
Proof.
  intros Hg. split; [apply handleSend_settle; exact Hg|].
  split; [apply (handleSend_accepted env st textContent Hg)|].
  destruct (settle_spec env textContent
              (fetchHistory (Some history) (accept env textContent st))
              eq_refl) as (Hm & Ht & _).
  rewrite Hm, Ht. split; reflexivity.
Qed.

(** ** Typing while a turn is in flight *)

(** A text typed into the input after a text was accepted does not
    disturb the turn and is not lost: the turn appends the same two
    messages, and when it ends the input still holds the typed text and
    the send button is enabled exactly when that text is not blank. *)
Theorem typing_ahead_is_kept (env : TurnEnv) (st : Session)
  (textContent typed : jsstring) :
  guard st = Some textContent ->
  messages
    (settle env textContent (setInputValue typed (accept env textContent st)))
  = messages (handleSend env st)
  /\ inputValue
       (settle env textContent
          (setInputValue typed (accept env textContent st)))
     = typed
  /\ send_disabled
       (settle env textContent
          (setInputValue typed (accept env textContent st)))
     = negb (truthy (trim typed)).
Proof.
  intros Hg.
  destruct (settle_spec env textContent
              (setInputValue typed (accept env textContent st)) eq_refl)
    as (Hm & Ht & Hi & _).
  destruct (handleSend_accepted env st textContent Hg) as (Hm' & _).
  unfold send_disabled. rewrite Hm, Ht, Hi, Hm'. session_cbn.
  rewrite <- app_assoc, orb_false_r. repeat split.
Qed.

(** ** Lines *)

Lemma trimStart_app_whitespace (s : jsstring) (w : N) :
  is_whitespace w = true ->
  trimStart (s ++ [w])
  = match trimStart s with
    | [] => []
    | _ :: _ => trimStart s ++ [w]
    end.
Proof.
  intros Hw. induction s as [|c s IH]; simpl.
  - rewrite Hw. reflexivity.
  - destruct (is_whitespace c); [exact IH|reflexivity].
Qed.

(** A white space or line terminator at the end does not change what
    [trim] returns. *)
Lemma trim_app_whitespace (s : jsstring) (w : N) :
  is_whitespace w = true -> trim (s ++ [w]) = trim s.
Proof.
  intros Hw. unfold trim. rewrite (trimStart_app_whitespace s w Hw).
  destruct (trimStart s) as [|c r]; [reflexivity|].
  unfold trimEnd. rewrite rev_app_distr. simpl. rewrite Hw. reflexivity.
Qed.

Lemma startsWith_app (s prefix extra : jsstring) :
  startsWith s prefix = true -> startsWith (s ++ extra) prefix = true.
Proof.
  revert s; induction prefix as [|p prefix IH]; intros s H.
  - destruct (s ++ extra); reflexivity.
  - destruct s as [|c s]; [discriminate|]. simpl in *.
    apply andb_true_iff in H. destruct H as [-> H]. simpl. apply IH. exact H.
Qed.

(** A carriage return, or any other white space, after the payload of a
    frame changes nothing: a stream with CR LF line ends is decoded like
    one with LF line ends. *)
Theorem trailing_whitespace_is_ignored (st : Session) (t : TurnState)
  (line : jsstring) (w : N) :
  startsWith line (js "data: ") = true ->
  is_whitespace w = true ->
  line_step st t (line ++ [w]) = line_step st t line.
Proof.
  intros Hp Hw. unfold line_step.
  rewrite (startsWith_app line (js "data: ") [w] Hp), Hp.
  assert (Hs : slice 6 (line ++ [w]) = slice 6 line ++ [w]).
  { unfold slice. rewrite skipn_app.
    apply startsWith_length in Hp.
    change (List.length (js "data: ")) with 6%nat in Hp.
    replace (6 - List.length line)%nat with 0%nat by lia. reflexivity. }
  rewrite Hs, (trim_app_whitespace _ w Hw). reflexivity.
Qed.

Lemma line_step_without_effect (st : Session) (t : TurnState)
  (line : jsstring) :
  startsWith line (js "data: ") = false
  \/ (is_sentinel line = false
      /\ JSON.parse (trim (slice 6 line)) = None) ->
  line_step st t line = (st, t, Continue).
Proof.
  unfold line_step, is_sentinel. intros [H|[Hs Hp]].
  - rewrite H. reflexivity.
  - destruct (startsWith line (js "data: ")); [|reflexivity].
    cbn [andb] in Hs. rewrite Hs, Hp. reflexivity.
Qed.

Lemma for_lines_skip (st : Session) (t : TurnState)
  (before after : list jsstring) (line : jsstring) :
  startsWith line (js "data: ") = false
  \/ (is_sentinel line = false
      /\ JSON.parse (trim (slice 6 line)) = None) ->
  for_lines st t (before ++ line :: after) = for_lines st t (before ++ after).
Proof.
  intros H. revert st t.
  induction before as [|l before IH]; intros st t; simpl.
  - rewrite (line_step_without_effect st t line H). reflexivity.
  - destruct (line_step st t l) as [[st' t'] [|]]; [apply IH|reflexivity].
Qed.

(** A line without the marker, and a frame whose payload is neither the
    sentinel nor JSON, are dropped without a trace: the lines before and
    after it are processed as if it were not there. *)
Theorem unreadable_line_is_skipped (st : Session) (t : TurnState)
  (before after : list jsstring) (line : jsstring) :
  startsWith line (js "data: ") = false
  \/ (is_sentinel line = false
      /\ JSON.parse (trim (slice 6 line)) = None) ->
  for_lines st t (before ++ line :: after) = for_lines st t (before ++ after).
Proof. apply for_lines_skip. Qed.

Lemma split_no_sep (sep : N) (s : jsstring) :
  existsb (N.eqb sep) s = false -> split sep s = [s].
Proof.
  induction s as [|c s IH]; simpl; intros H; [reflexivity|].
  apply orb_false_iff in H. destruct H as [Hc Hs].
  rewrite N.eqb_sym, Hc, (IH Hs). reflexivity.
Qed.

Lemma split_whole_lines (lines : list jsstring) :
  forallb (fun l => negb (existsb (N.eqb LF) l)) lines = true ->
  split LF (List.concat (map (fun l => l ++ [LF]) lines)) = lines ++ [[]].
Proof.
  induction lines as [|l lines IH]; simpl; intros H; [reflexivity|].
  apply andb_true_iff in H. destruct H as [Hl H].
  apply negb_true_iff in Hl.
  rewrite <- app_assoc. cbn [app].
  rewrite split_app_sep, (split_no_sep LF l Hl), (IH H). reflexivity.
Qed.

(** A chunk made of whole lines, each closed by a line feed, is
    processed line by line, in order, up to the first sentinel: the read
    loop sees exactly the lines that were sent. *)
Theorem chunk_of_whole_lines (st : Session) (t : TurnState)
  (lines : list jsstring) :
  forallb (fun l => negb (existsb (N.eqb LF) l)) lines = true ->
  split LF (List.concat (map (fun l => l ++ [LF]) lines)) = lines ++ [[]]
  /\ chunk_step st t (List.concat (map (fun l => l ++ [LF]) lines))
     = for_lines st t lines.
Proof.
  intros H. split; [apply split_whole_lines; exact H|].
  unfold chunk_step. rewrite (split_whole_lines lines H).
  transitivity (for_lines st t (lines ++ [])).
  - apply (for_lines_skip st t lines [] []). left. reflexivity.
  - rewrite app_nil_r. reflexivity.
Qed.

(** The sentinel is not what ends a turn: a last chunk that opens with
    the sentinel line leaves the read loop exactly where the chunks
    before it had left it, whatever else that chunk holds. *)
Theorem sentinel_chunk_is_optional (st : Session) (t : TurnState)
  (chunks : list jsstring) (chunk line : jsstring)
  (after : list jsstring) :
  split LF chunk = line :: after ->
  is_sentinel line = true ->
  read_loop st t (deliver (chunks ++ [chunk]) ReadDone)
  = read_loop st t (deliver chunks ReadDone).
Proof.
  intros Hsplit Hline. rewrite !read_loop_events.
  destruct (chunks_of_deliver (chunks ++ [chunk])) as [-> ->].
  destruct (chunks_of_deliver chunks) as [-> ->].
  unfold stream_events. rewrite flat_map_app, fold_left_app.
  cbn [flat_map]. unfold events_of_chunk. rewrite Hsplit.
  cbn [events_of_lines].
  rewrite (proj2 (decode_line_terminal line) Hline).
  rewrite app_nil_r.
  destruct (fold_left apply_event
              (flat_map (fun c => events_of_lines (split LF c)) chunks)
              (st, t)) as [st' t'].
  reflexivity.
Qed.

End Panel.

(* ================================================================== *)
(** * The claims on sample turns *)

(** C1: a frame cut by a chunk boundary is lost.  The first chunk ends in
    an unterminated piece that does not parse and is dropped, the second
    starts with a piece that has no marker: no event, where the whole
    frame in one chunk gives one text delta. *)
Lemma split_frame_is_lost :
  frame_ok_head ++ frame_ok_tail = frame_ok
  /\ stream_events [frame_ok] = [TextDelta (VString (js "ok"))]
  /\ stream_events [frame_ok_head; frame_ok_tail] = []
  /\ stream_events [frame_ok_head; frame_ok_tail] <> stream_events [frame_ok].
Proof. vm_compute. repeat split. discriminate. Qed.

Lemma chunking_at_line_ends_witness :
  forallb ends_line [frame_sure; frame_adding ++ frame_tool] = true
  /\ forallb sentinel_free [frame_sure; frame_adding ++ frame_tool] = true
  /\ stream_events ([frame_sure; frame_adding ++ frame_tool] ++ [frame_done])
     = stream_events
         [List.concat [frame_sure; frame_adding ++ frame_tool] ++ frame_done].
Proof.
  split; [reflexivity|]. split; [reflexivity|].
  exact (proj1 (chunking_at_line_ends as_written
                  [frame_sure; frame_adding ++ frame_tool] frame_done
                  eq_refl eq_refl)).
Defined.

(** C2: a tool call is read, then a read rejects: the turn takes the
    failure path and no sync notification is sent. *)
Lemma tool_call_before_failure_never_syncs :
  tool_invocations
    (env_at 1000 1005 (FetchResolves 200 (Some body_tool_then_error))) = 1%nat
  /\ taskMutations
       (handleSend as_written
          (env_at 1000 1005 (FetchResolves 200 (Some body_tool_then_error)))
          (idle_with_input (js "Add a task to buy milk")))
     = 0%nat
  /\ taskMutations
       (handleSend as_written
          (env_at 1000 1005 (FetchResolves 200 (Some body_tool_then_error)))
          (idle_with_input (js "Add a task to buy milk")))
     <> S (taskMutations (idle_with_input (js "Add a task to buy milk"))).
Proof. vm_compute. repeat split. discriminate. Qed.

Lemma tool_invocation_sync_needs_completion_witness :
  guard (idle_with_input (js "Add a task to buy milk"))
  = Some (js "Add a task to buy milk")
  /\ (1 <= tool_invocations
             (env_at 1000 1005 (FetchResolves 200 (Some body_milk))))%nat
  /\ taskMutations
       (handleSend as_written
          (env_at 1000 1005 (FetchResolves 200 (Some body_milk)))
          (idle_with_input (js "Add a task to buy milk")))
     = 1%nat.
Proof.
  split; [reflexivity|]. split; [vm_compute; lia|].
  exact (proj1 (tool_invocation_sync_needs_completion as_written
                  (env_at 1000 1005 (FetchResolves 200 (Some body_milk)))
                  (idle_with_input (js "Add a task to buy milk"))
                  (js "Add a task to buy milk")
                  eq_refl (le_n 1))).
Defined.

(** C3: a response with status 401 is read like any other.  Its body, an
    error record without the [data: ] marker, yields no event; the turn
    completes and the history gets an assistant message with an empty
    content and a clock id: no apology. *)
Lemma error_status_commits_an_answer :
  turn_completes (env_at 1000 1005 (FetchResolves 401 (Some body_unauthorized)))
  = true
  /\ messages
       (handleSend as_written
          (env_at 1000 1005 (FetchResolves 401 (Some body_unauthorized)))
          (idle_with_input (js "hi")))
     = [ {| id := js "1000"; role := user; content := js "hi";
            timestamp := js "2024-05-01T10:00:01.000Z" |};
         {| id := js "1006"; role := assistant; content := [];
            timestamp := js "2024-05-01T10:00:02.000Z" |} ]
  /\ ~ In (errorMsg
             (env_at 1000 1005 (FetchResolves 401 (Some body_unauthorized))))
          (messages
             (handleSend as_written
                (env_at 1000 1005
                   (FetchResolves 401 (Some body_unauthorized)))
                (idle_with_input (js "hi")))).
Proof.
  vm_compute. repeat split.
  intros [H|[H|[]]]; discriminate H.
Qed.

(** The failure path does not reset the partial text: after a read that
    rejects, the text rendered so far is still on display under the
    apology, until the next turn is accepted. *)
Lemma partial_text_survives_failure :
  currentResponse
    (handleSend as_written
       (env_at 1000 1005 (FetchResolves 200 (Some body_text_then_error)))
       (idle_with_input (js "Add a task to buy milk")))
  = js "Sure, ".
Proof. vm_compute. reflexivity. Qed.

Lemma failed_turn_appends_one_apology_witness :
  guard (idle_with_input (js "hi")) = Some (js "hi")
  /\ turn_completes (env_at 1000 1005 (FetchResolves 200 None)) = false
  /\ messages
       (handleSend as_written (env_at 1000 1005 (FetchResolves 200 None))
          (idle_with_input (js "hi")))
     = [ userMsg (env_at 1000 1005 (FetchResolves 200 None)) (js "hi");
         errorMsg (env_at 1000 1005 (FetchResolves 200 None)) ]
  /\ isTyping
       (handleSend as_written (env_at 1000 1005 (FetchResolves 200 None))
          (idle_with_input (js "hi")))
     = false.
Proof.
  split; [reflexivity|]. split; [reflexivity|].
  pose proof (failed_turn_appends_one_apology as_written
                (env_at 1000 1005 (FetchResolves 200 None))
                (idle_with_input (js "hi")) (js "hi") eq_refl eq_refl)
    as (Hm & _ & _ & _ & Ht).
  split; [exact Hm|exact Ht].
Defined.

(** C4: the sentinel closes its own chunk only.  A frame delivered in a
    later chunk is processed and changes the accumulated text. *)
Lemma frame_after_sentinel_chunk_is_processed :
  events_of_chunk frame_done = [Terminal]
  /\ chunk_step as_written (idle_with_input []) turn_start frame_done
     = (idle_with_input [], turn_start)
  /\ snd (read_loop as_written (idle_with_input []) turn_start
            (deliver [frame_done; frame_late] ReadDone))
     = Some {| assistantContent := js "late"; needsSync := false |}
  /\ snd (read_loop as_written (idle_with_input []) turn_start
            (deliver [frame_done; frame_late] ReadDone))
     <> snd (read_loop as_written (idle_with_input []) turn_start
               (deliver [frame_done] ReadDone)).
Proof. vm_compute. repeat split. discriminate. Qed.

Lemma nothing_after_sentinel_in_chunk_witness :
  split LF (frame_sure ++ frame_done ++ frame_late)
  = [jsq "data: {'type':'text','content':'Sure, '}"; []]
    ++ js "data: [DONE]"
    :: [[]; jsq "data: {'type':'text','content':'late'}"; []; []]
  /\ is_sentinel (js "data: [DONE]") = true
  /\ chunk_step as_written (idle_with_input []) turn_start
       (frame_sure ++ frame_done ++ frame_late)
     = for_lines as_written (idle_with_input []) turn_start
         [jsq "data: {'type':'text','content':'Sure, '}"; []].
Proof.
  split; [reflexivity|]. split; [reflexivity|].
  exact (proj1 (nothing_after_sentinel_in_chunk as_written
                  (idle_with_input []) turn_start
                  (frame_sure ++ frame_done ++ frame_late)
                  [jsq "data: {'type':'text','content':'Sure, '}"; []]
                  [[]; jsq "data: {'type':'text','content':'late'}"; []; []]
                  (js "data: [DONE]") eq_refl eq_refl)).
Defined.

(** C5: two tool calls are read, then a read rejects: the turn has
    k = 2 tool-invocation events and the notification is sent zero times,
    not min(2,1) = 1 time. *)
Lemma two_tool_calls_then_failure_zero_syncs :
  tool_invocations
    (env_at 1000 1005 (FetchResolves 200 (Some body_two_tools_then_error)))
  = 2%nat
  /\ taskMutations
       (handleSend as_written
          (env_at 1000 1005
             (FetchResolves 200 (Some body_two_tools_then_error)))
          (idle_with_input (js "Add two tasks")))
     <> (taskMutations (idle_with_input (js "Add two tasks"))
         + Nat.min 2 1)%nat.
Proof. vm_compute. split; [reflexivity|discriminate]. Qed.

Lemma sync_fires_min_k_1_on_completion_witness :
  guard (idle_with_input (js "Add a task to buy milk"))
  = Some (js "Add a task to buy milk")
  /\ taskMutations
       (handleSend as_written
          (env_at 1000 1005 (FetchResolves 200 (Some body_milk)))
          (idle_with_input (js "Add a task to buy milk")))
     = 1%nat.
Proof.
  split; [reflexivity|].
  exact (proj1 (sync_fires_min_k_1_on_completion as_written
                  (env_at 1000 1005 (FetchResolves 200 (Some body_milk)))
                  (idle_with_input (js "Add a task to buy milk"))
                  (js "Add a task to buy milk") eq_refl)).
Defined.

Lemma committed_content_is_concatenation_witness :
  guard (idle_with_input (js "Add a task to buy milk"))
  = Some (js "Add a task to buy milk")
  /\ ends_normally body_milk = true
  /\ exists committed : ChatMessage,
       messages
         (handleSend as_written
            (env_at 1000 1005 (FetchResolves 200 (Some body_milk)))
            (idle_with_input (js "Add a task to buy milk")))
       = [ userMsg (env_at 1000 1005 (FetchResolves 200 (Some body_milk)))
             (js "Add a task to buy milk");
           committed ]
       /\ content committed = js "Sure, adding it now.".
Proof.
  split; [reflexivity|]. split; [reflexivity|].
  destruct (committed_content_is_concatenation as_written
              (env_at 1000 1005 (FetchResolves 200 (Some body_milk)))
              (idle_with_input (js "Add a task to buy milk"))
              (js "Add a task to buy milk") 200 body_milk
              eq_refl eq_refl eq_refl)
    as (committed & Hm & _ & Hc & _).
  exists committed. split; [exact Hm|].
  rewrite Hc. vm_compute. reflexivity.
Defined.

Lemma rejected_submit_is_noop_witness :
  (trim (inputValue (in_flight_with_input (js "one more"))) = []
   \/ isTyping (in_flight_with_input (js "one more")) = true)
  /\ (trim (inputValue (idle_with_input (js "   "))) = []
      \/ isTyping (idle_with_input (js "   ")) = true)
  /\ handleSend as_written
       (env_at 1000 1005 (FetchResolves 200 (Some body_milk)))
       (in_flight_with_input (js "one more"))
     = in_flight_with_input (js "one more")
  /\ handleSend as_written
       (env_at 1000 1005 (FetchResolves 200 (Some body_milk)))
       (idle_with_input (js "   "))
     = idle_with_input (js "   ").
Proof.
  split; [right; reflexivity|]. split; [left; reflexivity|]. split.
  - exact (rejected_submit_is_noop as_written
             (env_at 1000 1005 (FetchResolves 200 (Some body_milk)))
             (in_flight_with_input (js "one more")) (or_intror eq_refl)).
  - exact (rejected_submit_is_noop as_written
             (env_at 1000 1005 (FetchResolves 200 (Some body_milk)))
             (idle_with_input (js "   ")) (or_introl eq_refl)).
Defined.


(** The history must also be clear of the ids to come: a fetched message
    whose id is the decimal of the clock at the next submit shares its id
    with the user message of that turn. *)
Lemma fetched_id_can_collide :
  ~ NoDup
      (map id
         (messages
            (run_turns as_written
               [(js "hello",
                 env_at 1000 1005 (FetchResolves 200 (Some body_hello)))]
               (fetchHistory
                  (Some [ {| id := js "1000"; role := assistant;
                             content := js "earlier answer";
                             timestamp := js "2024-04-30T09:00:03.000Z" |} ])
                  (idle_with_input []))))).
Proof.
  vm_compute. intros H. inversion H as [|? ? Hn _].
  apply Hn. simpl. tauto.
Qed.


Lemma missing_content_commits_undefined_witness :
  guard (idle_with_input (js "hello")) = Some (js "hello")
  /\ messages
       (handleSend as_written
          (env_at 1000 1005
             (FetchResolves 200 (Some (ReadChunk frame_no_content ReadDone))))
          (idle_with_input (js "hello")))
     = [ {| id := js "1000"; role := user; content := js "hello";
            timestamp := js "2024-05-01T10:00:01.000Z" |};
         {| id := js "1006"; role := assistant; content := js "undefined";
            timestamp := js "2024-05-01T10:00:02.000Z" |} ].
Proof.
  split; [reflexivity|].
  exact (proj2 (missing_content_commits_undefined as_written
                  (env_at 1000 1005
                     (FetchResolves 200
                        (Some (ReadChunk frame_no_content ReadDone))))
                  (idle_with_input (js "hello")) (js "hello") 200
                  eq_refl eq_refl)).
Defined.

(** ** The scenarios of the specification *)

(** Scenario A: the answer is committed and one sync signal is sent. *)
Example scenario_A :
  handleSend as_written
    (env_at 1000 1005 (FetchResolves 200 (Some body_milk)))
    (idle_with_input (js "Add a task to buy milk"))
  = {| messages :=
         [ {| id := js "1000"; role := user;
              content := js "Add a task to buy milk";
              timestamp := js "2024-05-01T10:00:01.000Z" |};
           {| id := js "1006"; role := assistant;
              content := js "Sure, adding it now.";
              timestamp := js "2024-05-01T10:00:02.000Z" |} ];
       isTyping := false; currentResponse := []; inputValue := [];
       taskMutations := 1; requests := [js "Add a task to buy milk"];
       consoleErrors := 0 |}.
Proof. vm_compute. reflexivity. Qed.

(** Scenario B: a text answer and no sync signal. *)
Example scenario_B :
  handleSend as_written
    (env_at 1000 1005 (FetchResolves 200 (Some body_hello)))
    (idle_with_input (js "hello"))
  = {| messages :=
         [ {| id := js "1000"; role := user; content := js "hello";
              timestamp := js "2024-05-01T10:00:01.000Z" |};
           {| id := js "1006"; role := assistant; content := js "Hi there!";
              timestamp := js "2024-05-01T10:00:02.000Z" |} ];
       isTyping := false; currentResponse := []; inputValue := [];
       taskMutations := 0; requests := [js "hello"];
       consoleErrors := 0 |}.
Proof. vm_compute. reflexivity. Qed.

(** Scenario C: no response body; the apology, no sync signal, idle. *)
Example scenario_C :
  handleSend as_written (env_at 1000 1005 (FetchResolves 200 None))
    (idle_with_input (js "hi"))
  = {| messages :=
         [ {| id := js "1000"; role := user; content := js "hi";
              timestamp := js "2024-05-01T10:00:01.000Z" |};
           {| id := js "error"; role := assistant; content := apology;
              timestamp := js "2024-05-01T10:00:02.000Z" |} ];
       isTyping := false; currentResponse := []; inputValue := [];
       taskMutations := 0; requests := [js "hi"];
       consoleErrors := 1 |}.
Proof. vm_compute. reflexivity. Qed.

(* ================================================================== *)
(** * The further properties on sample turns *)

Lemma partial_text_is_accumulated_text_witness :
  currentResponse (idle_with_input []) = assistantContent turn_start
  /\ currentResponse
       (fst (read_loop as_written (idle_with_input []) turn_start
               body_text_then_error))
     = js "Sure, ".
Proof.
  split; [reflexivity|].
  exact (proj1 (partial_text_is_accumulated_text as_written
                  body_text_then_error (idle_with_input []) turn_start
                  eq_refl)).
Defined.

Lemma partial_text_only_grows_witness :
  currentResponse (idle_with_input []) = assistantContent turn_start
  /\ currentResponse
       (fst (read_loop as_written (idle_with_input []) turn_start
               (deliver ([frame_sure] ++ [frame_adding]) ReadDone)))
     = currentResponse
         (fst (read_loop as_written (idle_with_input []) turn_start
                 (deliver [frame_sure] ReadDone)))
       ++ js "adding it now.".
Proof.
  split; [reflexivity|].
  exact (partial_text_only_grows as_written [frame_sure] [frame_adding]
           (idle_with_input []) turn_start eq_refl).
Defined.

Lemma accepted_call_appends_a_pair_witness :
  guard (idle_with_input (js "  hello  ")) = Some (js "hello")
  /\ messages
       (handleSend as_written
          (env_at 1000 1005 (FetchResolves 200 (Some body_hello)))
          (idle_with_input (js "  hello  ")))
     = [ {| id := js "1000"; role := user; content := js "hello";
            timestamp := js "2024-05-01T10:00:01.000Z" |};
         {| id := js "1006"; role := assistant; content := js "Hi there!";
            timestamp := js "2024-05-01T10:00:02.000Z" |} ].
Proof.
  split; [reflexivity|].
  exact (proj1 (accepted_call_appends_a_pair as_written
                  (env_at 1000 1005 (FetchResolves 200 (Some body_hello)))
                  (idle_with_input (js "  hello  ")) (js "hello") eq_refl)).
Defined.

Lemma display_after_call_witness :
  guard (idle_with_input (js "Add a task to buy milk"))
  = Some (js "Add a task to buy milk")
  /\ shows_partial
       (handleSend as_written
          (env_at 1000 1005 (FetchResolves 200 (Some body_text_then_error)))
          (idle_with_input (js "Add a task to buy milk")))
     = true
  /\ shows_partial
       (handleSend as_written
          (env_at 1000 1005 (FetchResolves 200 (Some body_milk)))
          (idle_with_input (js "Add a task to buy milk")))
     = false.
Proof.
  split; [reflexivity|]. split.
  - exact (proj1 (proj2 (proj2
             (display_after_call as_written
                (env_at 1000 1005
                   (FetchResolves 200 (Some body_text_then_error)))
                (idle_with_input (js "Add a task to buy milk"))
                (js "Add a task to buy milk") eq_refl)))).
  - exact (proj1 (proj2 (proj2
             (display_after_call as_written
                (env_at 1000 1005 (FetchResolves 200 (Some body_milk)))
                (idle_with_input (js "Add a task to buy milk"))
                (js "Add a task to buy milk") eq_refl)))).
Defined.

Lemma submit_after_failure_witness :
  guard (idle_with_input (js "hi")) = Some (js "hi")
  /\ turn_completes (env_at 1000 1005 FetchRejects) = false
  /\ truthy (trim (js " hello ")) = true
  /\ messages
       (handleSend as_written
          (env_at 2000 2005 (FetchResolves 200 (Some body_hello)))
          (setInputValue (js " hello ")
             (handleSend as_written (env_at 1000 1005 FetchRejects)
                (idle_with_input (js "hi")))))
     = [ {| id := js "1000"; role := user; content := js "hi";
            timestamp := js "2024-05-01T10:00:01.000Z" |};
         {| id := js "error"; role := assistant; content := apology;
            timestamp := js "2024-05-01T10:00:02.000Z" |};
         {| id := js "2000"; role := user; content := js "hello";
            timestamp := js "2024-05-01T10:00:01.000Z" |};
         {| id := js "2006"; role := assistant; content := js "Hi there!";
            timestamp := js "2024-05-01T10:00:02.000Z" |} ].
Proof.
  split; [reflexivity|]. split; [reflexivity|]. split; [reflexivity|].
  exact (proj1 (submit_after_failure as_written
                  (env_at 1000 1005 FetchRejects)
                  (env_at 2000 2005 (FetchResolves 200 (Some body_hello)))
                  (idle_with_input (js "hi")) (js "hi") (js " hello ")
                  eq_refl eq_refl eq_refl)).
Defined.

Lemma session_appends_pairs_witness :
  isTyping (idle_with_input []) = false
  /\ map content
       (messages
          (run_turns as_written
             [(js "Add a task to buy milk",
               env_at 1000 1005 (FetchResolves 200 (Some body_milk)));
              (js "   ", env_at 2000 2005 FetchRejects);
              (js "hello",
               env_at 3000 3005 (FetchResolves 200 (Some body_hello)))]
             (idle_with_input [])))
     = [js "Add a task to buy milk"; js "Sure, adding it now.";
        js "hello"; js "Hi there!"].
Proof.
  split; [reflexivity|].
  exact (f_equal (map content)
           (proj1 (proj2
              (session_appends_pairs as_written
                 [(js "Add a task to buy milk",
                   env_at 1000 1005 (FetchResolves 200 (Some body_milk)));
                  (js "   ", env_at 2000 2005 FetchRejects);
                  (js "hello",
                   env_at 3000 3005 (FetchResolves 200 (Some body_hello)))]
                 (idle_with_input []) eq_refl)))).
Defined.

Lemma session_sync_count_witness :
  isTyping (idle_with_input []) = false
  /\ taskMutations
       (run_turns as_written
          [(js "Add a task to buy milk",
            env_at 1000 1005 (FetchResolves 200 (Some body_milk)));
           (js "Add two tasks",
            env_at 2000 2005
              (FetchResolves 200 (Some body_two_tools_then_error)));
           (js "hello",
            env_at 3000 3005 (FetchResolves 200 (Some body_hello)))]
          (idle_with_input []))
     = 1%nat.
Proof.
  split; [reflexivity|].
  exact (session_sync_count as_written
           [(js "Add a task to buy milk",
             env_at 1000 1005 (FetchResolves 200 (Some body_milk)));
            (js "Add two tasks",
             env_at 2000 2005
               (FetchResolves 200 (Some body_two_tools_then_error)));
            (js "hello",
             env_at 3000 3005 (FetchResolves 200 (Some body_hello)))]
           (idle_with_input []) eq_refl).
Defined.

Lemma history_fetched_while_pending_witness :
  guard (idle_with_input (js "hello")) = Some (js "hello")
  /\ map content
       (messages
          (settle as_written
             (env_at 1000 1005 (FetchResolves 200 (Some body_hello)))
             (js "hello")
             (fetchHistory
                (Some [ {| id := js "41"; role := user;
                           content := js "earlier question";
                           timestamp := js "2024-04-30T09:00:00.000Z" |};
                        {| id := js "42"; role := assistant;
                           content := js "earlier answer";
                           timestamp := js "2024-04-30T09:00:03.000Z" |} ])
                (accept
                   (env_at 1000 1005 (FetchResolves 200 (Some body_hello)))
                   (js "hello") (idle_with_input (js "hello"))))))
     = [js "earlier question"; js "earlier answer"; js "Hi there!"].
Proof.
  split; [reflexivity|].
  exact (f_equal (map content)
           (proj1 (proj2 (proj2
              (history_fetched_while_pending as_written
                 (env_at 1000 1005 (FetchResolves 200 (Some body_hello)))
                 (idle_with_input (js "hello")) (js "hello")
                 [ {| id := js "41"; role := user;
                      content := js "earlier question";
                      timestamp := js "2024-04-30T09:00:00.000Z" |};
                   {| id := js "42"; role := assistant;
                      content := js "earlier answer";
                      timestamp := js "2024-04-30T09:00:03.000Z" |} ]
                 eq_refl))))).
Defined.

Lemma trailing_whitespace_is_ignored_witness :
  startsWith (jsq "data: {'type':'text','content':'ok'}") (js "data: ") = true
  /\ is_whitespace 13 = true
  /\ line_step as_written (idle_with_input []) turn_start
       (jsq "data: {'type':'text','content':'ok'}" ++ [13])
     = line_step as_written (idle_with_input []) turn_start
         (jsq "data: {'type':'text','content':'ok'}").
Proof.
  split; [reflexivity|]. split; [reflexivity|].
  exact (trailing_whitespace_is_ignored as_written (idle_with_input [])
           turn_start (jsq "data: {'type':'text','content':'ok'}") 13
           eq_refl eq_refl).
Defined.

Lemma unreadable_line_is_skipped_witness :
  (startsWith frame_ok_head (js "data: ") = false
   \/ (is_sentinel frame_ok_head = false
       /\ JSON.parse (trim (slice 6 frame_ok_head)) = None))
  /\ for_lines as_written (idle_with_input []) turn_start
       ([jsq "data: {'type':'text','content':'Sure, '}"]
        ++ frame_ok_head
        :: [jsq "data: {'type':'text','content':'adding it now.'}"])
     = for_lines as_written (idle_with_input []) turn_start
         ([jsq "data: {'type':'text','content':'Sure, '}"]
          ++ [jsq "data: {'type':'text','content':'adding it now.'}"]).
Proof.
  split; [right; split; reflexivity|].
  exact (unreadable_line_is_skipped as_written (idle_with_input [])
           turn_start
           [jsq "data: {'type':'text','content':'Sure, '}"]
           [jsq "data: {'type':'text','content':'adding it now.'}"]
           frame_ok_head (or_intror (conj eq_refl eq_refl))).
Defined.

Lemma chunk_of_whole_lines_witness :
  forallb (fun l => negb (existsb (N.eqb LF) l))
    [jsq "data: {'type':'text','content':'Sure, '}"; [];
     jsq "data: {'type':'tool_call'}"; []] = true
  /\ chunk_step as_written (idle_with_input []) turn_start
       (List.concat
          (map (fun l => l ++ [LF])
             [jsq "data: {'type':'text','content':'Sure, '}"; [];
              jsq "data: {'type':'tool_call'}"; []]))
     = for_lines as_written (idle_with_input []) turn_start
         [jsq "data: {'type':'text','content':'Sure, '}"; [];
          jsq "data: {'type':'tool_call'}"; []].
Proof.
  split; [reflexivity|].
  exact (proj2 (chunk_of_whole_lines as_written (idle_with_input [])
                  turn_start
                  [jsq "data: {'type':'text','content':'Sure, '}"; [];
                   jsq "data: {'type':'tool_call'}"; []] eq_refl)).
Defined.

Lemma sentinel_chunk_is_optional_witness :
  split LF (frame_done ++ frame_late)
  = js "data: [DONE]"
    :: [[]; jsq "data: {'type':'text','content':'late'}"; []; []]
  /\ is_sentinel (js "data: [DONE]") = true
  /\ read_loop as_written (idle_with_input []) turn_start
       (deliver ([frame_sure] ++ [frame_done ++ frame_late]) ReadDone)
     = read_loop as_written (idle_with_input []) turn_start
         (deliver [frame_sure] ReadDone).
Proof.
  split; [reflexivity|]. split; [reflexivity|].
  exact (sentinel_chunk_is_optional as_written (idle_with_input [])
           turn_start [frame_sure] (frame_done ++ frame_late)
           (js "data: [DONE]")
           [[]; jsq "data: {'type':'text','content':'late'}"; []; []]
           eq_refl eq_refl).
Defined.

Lemma typing_ahead_is_kept_witness :
  guard (idle_with_input (js "hello")) = Some (js "hello")
  /\ inputValue
       (settle as_written
          (env_at 1000 1005 (FetchResolves 200 (Some body_hello)))
          (js "hello")
          (setInputValue (js "and then")
             (accept (env_at 1000 1005 (FetchResolves 200 (Some body_hello)))
                (js "hello") (idle_with_input (js "hello")))))
     = js "and then".
Proof.
  split; [reflexivity|].
  exact (proj1 (proj2
           (typing_ahead_is_kept as_written
              (env_at 1000 1005 (FetchResolves 200 (Some body_hello)))
              (idle_with_input (js "hello")) (js "hello") (js "and then")
              eq_refl))).
Defined.
